(** * The Go translator of MultiPL-E ([humaneval_to_go.py])

    A shallow embedding of the type mapper ([translate_type]), the prompt
    assembler ([translate_prompt]) and the literal mapper ([gen_literal],
    [gen_list], [gen_dict], ...) of [GoTranslator], followed by the
    properties of the specification that concern them.

    Conventions.
    - A Python [str] is a [string]; every [ascii] stands for the code point
      of the same number, so the strings covered are those whose code points
      are below 256.
    - A Python exception is a value of [exn]; a call that may raise returns
      [exn + A], with [inl] for the raised exception.
    - [print] appends a line to the [stdout] field that accompanies the
      translator object. *)

From Stdlib Require Import String Ascii List ZArith Bool Lia DecimalString.
From Stdlib Require Import DecimalPos DecimalZ.
Import ListNotations.
Local Open Scope list_scope.
Local Open Scope string_scope.
Set Warnings "-register-all".

(** ** Characters and strings *)

Definition dquote : ascii := "034"%char.
Definition squote : ascii := "039"%char.
Definition backslash : ascii := "092"%char.
Definition newline : ascii := "010"%char.

Definition DQ : string := String dquote "".
Definition NL : string := String newline "".

(** [sep.join(l)] on a list of strings. *)
Fixpoint join (sep : string) (l : list string) : string :=
  match l with
  | [] => ""
  | [x] => x
  | x :: rest => x ++ sep ++ join sep rest
  end.

(** ** Python AST nodes and the other objects an annotation can be *)

Inductive expr_context : Type := Load | Store | Del.

(** The payload of an [ast.Constant]. *)
Inductive constant : Type :=
| ConstNone
| ConstEllipsis
| ConstBool (b : bool)
| ConstInt (z : Z)
| ConstStr (s : string).

(** What [translate_type] can be handed: an expression node of the [ast]
    module, a plain [str] (the [id] bound by a pattern [ast.Name(k)]), or
    [None] for an absent annotation. *)
Inductive annotation : Type :=
| Name (id : string) (ctx : expr_context)
| Subscript (value slice : annotation) (ctx : expr_context)
| Tuple (elts : list annotation) (ctx : expr_context)
| Attribute (value : annotation) (attr : string) (ctx : expr_context)
| Constant (value : constant)
| StrObj (s : string)
| NoneObj.

(** ** Exceptions *)

(** [Exception msg] is [Exception(msg)] with the message the code builds.
    [ExceptionAbout msg obj] is [Exception(f"{msg}{obj}")]: the text that
    [str(obj)] contributes is the interpreter's rendering of the object and
    is kept symbolic.  [TypeErrorJoin i] is the [TypeError] of [str.join]
    whose item number [i] is not a [str].  [ValueErrorDigits] is the
    [ValueError] of the conversion to text of an [int] that has more digits
    than the interpreter allows. *)
Inductive exn : Type :=
| Exception (msg : string)
| ExceptionAbout (msg : string) (obj : annotation)
| TypeErrorJoin (index : nat)
| ValueErrorDigits.

Definition result (A : Type) : Type := (exn + A)%type.

Definition ok {A} (a : A) : result A := inr a.
Definition raise {A} (e : exn) : result A := inl e.

Definition rbind {A B} (r : result A) (k : A -> result B) : result B :=
  match r with
  | inl e => inl e
  | inr a => k a
  end.

Declare Scope result_scope.
Delimit Scope result_scope with result.
Notation "x <- r ;; k" := (rbind r (fun x => k))
  (at level 61, r at next level, right associativity) : result_scope.

(** A list comprehension whose body may raise: the first exception ends it. *)
Fixpoint map_result {A B} (f : A -> result B) (l : list A) : result (list B) :=
  match l with
  | [] => ok []
  | x :: rest =>
      (y <- f x ;; ys <- map_result f rest ;; ok (y :: ys))%result
  end.

(** ** Type mapper *)

(** [translate_type] applied to a plain [str]: only the literal patterns
    ["int"] and ["str"] can match, every class pattern fails, and the last
    case raises. *)
Definition translate_type_str (s : string) : result string :=
  if s =? "int" then ok "int"
  else if s =? "str" then ok "string"
  else raise (ExceptionAbout "unknown annotation: " (StrObj s)).

Fixpoint translate_type (t : annotation) : result string :=
  match t with
  | Subscript (Name id _) slice _ =>
      if id =? "List" then
        (s <- translate_type slice ;; ok ("[]" ++ s))%result
      else if id =? "Union" then raise (Exception "Union unsupported")
      else if id =? "Tuple" then raise (Exception "Tuple unsupported")
      else if id =? "Dict" then
        match slice with
        | Tuple [Name k _; Name v _] _ =>
            (key <- translate_type_str k ;;
             value <- translate_type_str v ;;
             ok ("map[" ++ key ++ "]" ++ value))%result
        | _ => raise (ExceptionAbout "Bad dict: " slice)
        end
      else if id =? "Optional" then raise (Exception "Optional unsupported")
      else raise (Exception ("Bad generic " ++ id))
  | Name id _ =>
      if id =? "int" then ok "int"
      else if id =? "float" then ok "float64"
      else if id =? "bool" then ok "bool"
      else if id =? "str" then ok "string"
      else if id =? "Any" then ok "any"
      else raise (Exception ("unknown name " ++ id))
  | StrObj s => translate_type_str s
  | NoneObj => raise (Exception "implicitly untyped argument")
  | Constant _ => raise (Exception "no ellipsis!!")
  | _ => raise (ExceptionAbout "unknown annotation: " t)
  end.

(** ** Python values and their types *)

(** A [float].  The translator inspects a float only through [type] and
    [repr], so a float is identified by the text [repr] gives for it. *)
Record pyfloat : Type := { float_repr : string }.

Inductive pyval : Type :=
| PyBool (b : bool)
| PyStr (s : string)
| PyInt (z : Z)
| PyFloat (f : pyfloat)
| PyNone
| PyList (items : list pyval)
| PyTuple (items : list pyval)
| PyDict (items : list (pyval * pyval)).

(** Type objects: the classes of the values above, and the generic aliases
    [typing.List[a]] and [typing.Dict[k, v]]. *)
Inductive pytype : Type :=
| ty_int
| ty_bool
| ty_str
| ty_float
| ty_NoneType
| ty_list
| ty_tuple
| ty_dict
| typing_List (arg : pytype)
| typing_Dict (key value : pytype).

(** [type(v)]: always a class, never a generic alias. *)
Definition py_type (v : pyval) : pytype :=
  match v with
  | PyBool _ => ty_bool
  | PyStr _ => ty_str
  | PyInt _ => ty_int
  | PyFloat _ => ty_float
  | PyNone => ty_NoneType
  | PyList _ => ty_list
  | PyTuple _ => ty_tuple
  | PyDict _ => ty_dict
  end.

(** [==] between type objects: classes are equal when identical, generic
    aliases when origin and arguments are equal. *)
Fixpoint pytype_eqb (a b : pytype) : bool :=
  match a, b with
  | ty_int, ty_int | ty_bool, ty_bool | ty_str, ty_str | ty_float, ty_float
  | ty_NoneType, ty_NoneType | ty_list, ty_list | ty_tuple, ty_tuple
  | ty_dict, ty_dict => true
  | typing_List x, typing_List y => pytype_eqb x y
  | typing_Dict k v, typing_Dict k' v' => pytype_eqb k k' && pytype_eqb v v'
  | _, _ => false
  end.

(** The right operand of a [==] whose left operand is a type object. *)
Inductive operand : Type :=
| OType (t : pytype)
| OValue (v : pyval).

(** [t == o] for a type object [t]: no type object is equal to a value that
    is not a type, [None] included. *)
Definition type_eq (t : pytype) (o : operand) : bool :=
  match o with
  | OType u => pytype_eqb t u
  | OValue _ => false
  end.

(** *** [repr] and [str] *)

Definition hex_digit (n : nat) : ascii :=
  nth n ["0"; "1"; "2"; "3"; "4"; "5"; "6"; "7"; "8"; "9";
         "a"; "b"; "c"; "d"; "e"; "f"]%char "0"%char.

(** Printable code points below 256: not a control character, not a
    separator other than the space, not the soft hyphen. *)
Definition is_printable (c : ascii) : bool :=
  let n := nat_of_ascii c in
  ((32 <=? n) && negb (n =? 127) && negb ((128 <=? n) && (n <=? 160))
   && negb (n =? 173))%nat.

Fixpoint contains (c : ascii) (s : string) : bool :=
  match s with
  | EmptyString => false
  | String d rest => Ascii.eqb c d || contains c rest
  end.

Definition repr_char (quote c : ascii) : string :=
  if Ascii.eqb c quote || Ascii.eqb c backslash then String backslash (String c "")
  else if Ascii.eqb c "009"%char then String backslash "t"
  else if Ascii.eqb c newline then String backslash "n"
  else if Ascii.eqb c "013"%char then String backslash "r"
  else if is_printable c then String c ""
  else String backslash
         (String "x" (String (hex_digit (nat_of_ascii c / 16))
                        (String (hex_digit (nat_of_ascii c mod 16)) ""))).

Fixpoint repr_chars (quote : ascii) (s : string) : string :=
  match s with
  | EmptyString => ""
  | String c rest => repr_char quote c ++ repr_chars quote rest
  end.

(** [repr] of a [str]: single quotes, unless the text has a single quote and
    no double quote. *)
Definition repr_str (s : string) : string :=
  let quote := if contains squote s && negb (contains dquote s)
               then dquote else squote in
  String quote (repr_chars quote s ++ String quote "").

(** The largest number of digits of an [int] that is converted to text:
    [sys.get_int_max_str_digits()], which is 4300 where nothing sets it. *)
Definition int_max_str_digits : nat := 4300.

(** The number of decimal digits of an [int]. *)
Definition int_digits (z : Z) : nat :=
  match Z.to_int z with
  | Decimal.Pos d | Decimal.Neg d => String.length (NilZero.string_of_uint d)
  end.

(** [repr] of an [int]: its decimal numeral, or [ValueError] when it has
    more digits than the limit. *)
Definition repr_int (z : Z) : result string :=
  if (int_max_str_digits <? int_digits z)%nat then raise ValueErrorDigits
  else ok (NilZero.string_of_int (Z.to_int z)).

(** [repr(v)].  The items of a container are rendered from left to right and
    the first exception ends the rendering.  (The recursion limit of the
    interpreter, which bounds the depth of the containers it renders, is
    not modelled.) *)
Fixpoint py_repr (v : pyval) : result string :=
  match v with
  | PyBool true => ok "True"
  | PyBool false => ok "False"
  | PyStr s => ok (repr_str s)
  | PyInt z => repr_int z
  | PyFloat f => ok (float_repr f)
  | PyNone => ok "None"
  | PyList items =>
      (ss <- map_result py_repr items ;; ok ("[" ++ join ", " ss ++ "]"))%result
  | PyTuple [x] => (s <- py_repr x ;; ok ("(" ++ s ++ ",)"))%result
  | PyTuple items =>
      (ss <- map_result py_repr items ;; ok ("(" ++ join ", " ss ++ ")"))%result
  | PyDict items =>
      (ss <- map_result
               (fun kv =>
                  (k <- py_repr (fst kv) ;;
                   v <- py_repr (snd kv) ;;
                   ok (k ++ ": " ++ v))%result)
               items ;;
       ok ("{" ++ join ", " ss ++ "}"))%result
  end.

(** [str(v)], which is also what a replacement field [{v}] of an f-string
    inserts. *)
Definition py_str (v : pyval) : result string :=
  match v with
  | PyStr s => ok s
  | _ => py_repr v
  end.

(** [s.lower()], on the letters A to Z. *)
Definition lower_char (c : ascii) : ascii :=
  let n := nat_of_ascii c in
  if ((65 <=? n) && (n <=? 90))%nat then ascii_of_nat (n + 32) else c.

Fixpoint lower (s : string) : string :=
  match s with
  | EmptyString => ""
  | String c rest => String (lower_char c) (lower rest)
  end.

(** [sep.join(l)] on a list of values: [TypeError] at the first item that is
    not a [str]. *)
Fixpoint strs_from (i : nat) (l : list pyval) : result (list string) :=
  match l with
  | [] => ok []
  | PyStr s :: rest => (ss <- strs_from (S i) rest ;; ok (s :: ss))%result
  | _ :: _ => raise (TypeErrorJoin i)
  end.

Definition py_join (sep : string) (l : list pyval) : result string :=
  (ss <- strs_from 0 l ;; ok (join sep ss))%result.

(** *** Whitespace, [strip] and the docstring substitution *)

(** White space of a [str], for [strip] and for [\s] of [re]. *)
Definition is_space (c : ascii) : bool :=
  let n := nat_of_ascii c in
  (((9 <=? n) && (n <=? 13)) || ((28 <=? n) && (n <=? 32))
   || (n =? 133) || (n =? 160))%nat.

Fixpoint lstrip (s : string) : string :=
  match s with
  | EmptyString => ""
  | String c rest => if is_space c then lstrip rest else s
  end.

Fixpoint rstrip (s : string) : string :=
  match s with
  | EmptyString => ""
  | String c rest =>
      match rstrip rest with
      | EmptyString => if is_space c then "" else String c ""
      | r => String c r
      end
  end.

Definition strip (s : string) : string := rstrip (lstrip s).

(** [re.sub(DOCSTRING_LINESTART_RE, "\n// ", s)] for the pattern [\n(\s+)]:
    a newline followed by white space is replaced, together with all the
    white space after it, by a newline and the comment marker.  [skipping]
    holds while the scan is inside the white space of a match. *)
Fixpoint sub_linestart (skipping : bool) (s : string) : string :=
  match s with
  | EmptyString => ""
  | String c rest =>
      if skipping && is_space c then sub_linestart true rest
      else if Ascii.eqb c newline then
        match rest with
        | String d _ =>
            if is_space d then NL ++ "// " ++ sub_linestart true rest
            else String c (sub_linestart false rest)
        | EmptyString => String c ""
        end
      else String c (sub_linestart false rest)
  end.

(** ** The translator object *)

(** A line written by [print]: a text, a text followed by a type object
    ([print(s, t)]), or an exception ([print(e)]). *)
Inductive line : Type :=
| Text (s : string)
| TextType (s : string) (t : pytype)
| TextExn (e : exn).

Record GoTranslator : Type := mkGoTranslator {
  file_ext : string;
  type_ : option (list annotation * annotation);
  is_candidate_result : bool;
  prev_comp_types : list string;
  stdout : list line
}.

(** [GoTranslator(file_ext)], with nothing printed yet. *)
Definition init (ext : string) : GoTranslator :=
  {| file_ext := ext;
     type_ := None;
     is_candidate_result := false;
     prev_comp_types := [];
     stdout := [] |}.

Definition stop : list string :=
  [NL ++ "func"; "pub"; NL ++ "// "; "#[test]"].

(** A method: it reads and updates [self], and returns or raises. *)
Definition M (A : Type) : Type := GoTranslator -> GoTranslator * result A.

Definition ret {A} (a : A) : M A := fun self => (self, ok a).

Definition bind {A B} (m : M A) (k : A -> M B) : M B :=
  fun self =>
    match m self with
    | (self', inl e) => (self', inl e)
    | (self', inr a) => k a self'
    end.

Definition lift {A} (r : result A) : M A := fun self => (self, r).

Definition get {A} (field : GoTranslator -> A) : M A :=
  fun self => (self, ok (field self)).

Definition print (l : line) : M unit :=
  fun self =>
    ({| file_ext := file_ext self;
        type_ := type_ self;
        is_candidate_result := is_candidate_result self;
        prev_comp_types := prev_comp_types self;
        stdout := (stdout self ++ [l])%list |}, ok tt).

Definition set_type (t : list annotation * annotation) : M unit :=
  fun self =>
    ({| file_ext := file_ext self;
        type_ := Some t;
        is_candidate_result := is_candidate_result self;
        prev_comp_types := prev_comp_types self;
        stdout := stdout self |}, ok tt).

Definition set_is_candidate_result (b : bool) : M unit :=
  fun self =>
    ({| file_ext := file_ext self;
        type_ := type_ self;
        is_candidate_result := b;
        prev_comp_types := prev_comp_types self;
        stdout := stdout self |}, ok tt).

Definition set_prev_comp_types (ts : list string) : M unit :=
  fun self =>
    ({| file_ext := file_ext self;
        type_ := type_ self;
        is_candidate_result := is_candidate_result self;
        prev_comp_types := ts;
        stdout := stdout self |}, ok tt).

Declare Scope method_scope.
Delimit Scope method_scope with method.
Notation "x <- m ;; k" := (bind m (fun x => k))
  (at level 61, m at next level, right associativity) : method_scope.
Notation "m ;; k" := (bind m (fun _ => k))
  (at level 61, right associativity) : method_scope.
Local Open Scope method_scope.

(** *** [translate_prompt] *)

(** An [ast.arg]. *)
Record arg_node : Type := { arg : string; annotation_of : annotation }.

Definition translate_arg (a : arg_node) : result string :=
  (arg_type <- translate_type (annotation_of a) ;;
   ok (arg a ++ " " ++ arg_type))%result.

Definition toplevel (name : string) : string :=
  "package " ++ name ++ "_test" ++ NL ++ NL
  ++ "import (" ++ NL
  ++ "    " ++ DQ ++ "testing" ++ DQ ++ NL
  ++ "    " ++ DQ ++ "fmt" ++ DQ ++ NL
  ++ ")" ++ NL ++ NL.

Definition translate_prompt (name : string) (args : list arg_node)
    (returns : annotation) (description : string) : M (option string) :=
  let description :=
    "// " ++ sub_linestart false (strip description) ++ NL in
  set_type (map annotation_of args, returns) ;;
  match (arg_strings <- map_result translate_arg args ;;
         retType <- translate_type returns ;;
         ok (arg_strings, retType))%result with
  | inl e => print (TextExn e) ;; ret None
  | inr (arg_strings, retType) =>
      let arg_list := join ", " arg_strings in
      ret (Some (toplevel name ++ description ++ "func " ++ name ++ "("
                 ++ arg_list ++ ") " ++ retType ++ " {" ++ NL))
  end.

(** *** The literal mapper *)

Definition deep_equality (left right : string) : string :=
  "     { actual: " ++ left ++ ", expected: " ++ right ++ " },".

Definition pytype_to_gotype (pytype : pytype) : M string :=
  if pytype_eqb pytype ty_int then ret "int"
  else if pytype_eqb pytype ty_bool then ret "bool"
  else if pytype_eqb pytype ty_str then ret "string"
  else if pytype_eqb pytype ty_float then ret "float64"
  else if pytype_eqb pytype (typing_List ty_int) then ret "[]int"
  else print (TextType "UNKNOWN" pytype) ;; ret "UNKNOWN".

Definition gen_literal (c : pyval) : M string :=
  if type_eq (py_type c) (OType ty_bool) then
    s <- lift (py_str c) ;; ret (lower s)
  else if type_eq (py_type c) (OType ty_str) then
    s <- lift (py_str c) ;; ret (DQ ++ s ++ DQ)
  else if type_eq (py_type c) (OValue PyNone) then ret "nil"
  else lift (py_repr c).

Definition gen_unaryop (op v : string) : M string := ret (op ++ v).

Definition gen_var (v : string) : M string := ret v.

Definition gen_list (l : list pyval) : M string :=
  prev <- get prev_comp_types ;;
  elem_type <-
    (if (length l =? 0)%nat && (1 <=? length prev)%nat then
       ret (nth 0 prev "")
     else if (length l =? 0)%nat then
       print (Text "bad list, empty") ;; ret "int"
     else pytype_to_gotype (py_type (nth 0 l PyNone))) ;;
  prev <- get prev_comp_types ;;
  (if (length prev <? 1)%nat then set_prev_comp_types [elem_type]
   else ret tt) ;;
  body <- lift (py_join ", " l) ;;
  ret ("[]" ++ elem_type ++ "{" ++ body ++ "}").

Definition gen_tuple (t : list pyval) : M string :=
  lift (raise (Exception "Tuple unsupported")).

(** [f"{k}: {v}"] for a pair of [zip(keys, values)]. *)
Definition format_pair (kv : pyval * pyval) : result string :=
  (k <- py_str (fst kv) ;; v <- py_str (snd kv) ;; ok (k ++ ": " ++ v))%result.

Definition gen_dict (keys values : list pyval) : M string :=
  prev <- get prev_comp_types ;;
  types <-
    (if ((length keys =? 0)%nat || (length values =? 0)%nat)
        && (2 <=? length prev)%nat then
       ret (nth 0 prev "", nth 1 prev "")
     else if (length keys =? 0)%nat || (length values =? 0)%nat then
       print (Text "bad dict, empty") ;; ret ("string", "int")
     else
       keys_type <- pytype_to_gotype (py_type (nth 0 keys PyNone)) ;;
       values_type <- pytype_to_gotype (py_type (nth 0 values PyNone)) ;;
       ret (keys_type, values_type)) ;;
  let keys_type := fst types in
  let values_type := snd types in
  prev <- get prev_comp_types ;;
  (if (length prev <? 2)%nat then set_prev_comp_types [keys_type; values_type]
   else ret tt) ;;
  pairs <- lift (map_result format_pair (combine keys values)) ;;
  ret ("map[" ++ keys_type ++ "]" ++ values_type ++ "{"
       ++ join ", " pairs ++ "}").

Definition gen_call (func : string) (args : list pyval) : M string :=
  (if func =? "candidate" then set_is_candidate_result true else ret tt) ;;
  body <- lift (py_join ", " args) ;;
  ret (func ++ "(" ++ body ++ ")").

(** ** One problem's collection literals

    The literals of a problem are translated one after the other by the same
    translator object; an exception ends the translation of the problem. *)

Inductive literal : Type :=
| ListLit (l : list pyval)
| DictLit (keys values : list pyval).

Definition gen (c : literal) : M string :=
  match c with
  | ListLit l => gen_list l
  | DictLit keys values => gen_dict keys values
  end.

Fixpoint gen_all (cs : list literal) : M (list string) :=
  match cs with
  | [] => ret []
  | c :: rest => s <- gen c ;; ss <- gen_all rest ;; ret (s :: ss)
  end.

(** ** Go string literals *)

(** The text denoted by the inside of an interpreted string literal, for the
    characters and the single-character escapes of Go; [None] when a raw
    double quote or newline occurs, or an escape is not one of those. *)
Fixpoint go_chars (s : string) : option string :=
  match s with
  | EmptyString => Some ""
  | String c rest =>
      if Ascii.eqb c dquote || Ascii.eqb c newline then None
      else if Ascii.eqb c backslash then
        match rest with
        | String e rest' =>
            let simple (d : ascii) := option_map (String d) (go_chars rest') in
            if Ascii.eqb e "a"%char then simple "007"%char
            else if Ascii.eqb e "b"%char then simple "008"%char
            else if Ascii.eqb e "f"%char then simple "012"%char
            else if Ascii.eqb e "n"%char then simple "010"%char
            else if Ascii.eqb e "r"%char then simple "013"%char
            else if Ascii.eqb e "t"%char then simple "009"%char
            else if Ascii.eqb e "v"%char then simple "011"%char
            else if Ascii.eqb e backslash then simple backslash
            else if Ascii.eqb e dquote then simple dquote
            else None
        | EmptyString => None
        end
      else option_map (String c) (go_chars rest)
  end.

Fixpoint drop_last (s : string) : option (string * ascii) :=
  match s with
  | EmptyString => None
  | String c rest =>
      match drop_last rest with
      | None => Some ("", c)
      | Some (r, z) => Some (String c r, z)
      end
  end.

(** [go_string_literal text] is the string that [text] denotes when [text]
    is, as a whole, an interpreted string literal of Go. *)
Definition go_string_literal (text : string) : option string :=
  match text with
  | String c rest =>
      if Ascii.eqb c dquote then
        match drop_last rest with
        | Some (inside, z) => if Ascii.eqb z dquote then go_chars inside else None
        | None => None
        end
      else None
  | EmptyString => None
  end.

(** ** Vocabulary of the specification *)

(** The translator after [print(l)], and after an assignment to
    [self.prev_comp_types]. *)
Definition printed (l : line) (self : GoTranslator) : GoTranslator :=
  fst (print l self).

Definition recorded (ts : list string) (self : GoTranslator) : GoTranslator :=
  fst (set_prev_comp_types ts self).

(** The type descriptors of the specification that have mappable leaves. *)
Inductive primitive : Type := p_int | p_float | p_bool | p_str | p_any.

Inductive TypeDescriptor : Type :=
| Primitive (p : primitive)
| ListOf (elem : TypeDescriptor)
| DictOf (key value : TypeDescriptor).

Definition primitive_name (p : primitive) : string :=
  match p with
  | p_int => "int"
  | p_float => "float"
  | p_bool => "bool"
  | p_str => "str"
  | p_any => "Any"
  end.

(** The node the Python parser builds for the annotation that spells a
    descriptor: [int], [List[T]], [Dict[K, V]]. *)
Fixpoint node (d : TypeDescriptor) : annotation :=
  match d with
  | Primitive p => Name (primitive_name p) Load
  | ListOf elem => Subscript (Name "List" Load) (node elem) Load
  | DictOf key value =>
      Subscript (Name "Dict" Load) (Tuple [node key; node value] Load) Load
  end.

(** [mapType] as the specification words it. *)
Fixpoint mapType (d : TypeDescriptor) : string :=
  match d with
  | Primitive p_int => "int"
  | Primitive p_float => "float64"
  | Primitive p_bool => "bool"
  | Primitive p_str => "string"
  | Primitive p_any => "any"
  | ListOf elem => "[]" ++ mapType elem
  | DictOf key value => "map[" ++ mapType key ++ "]" ++ mapType value
  end.

Definition int_or_str (d : TypeDescriptor) : bool :=
  match d with
  | Primitive p_int | Primitive p_str => true
  | _ => false
  end.

Definition is_primitive (d : TypeDescriptor) : bool :=
  match d with
  | Primitive _ => true
  | _ => false
  end.

(** Descriptors all of whose [Dict] have [int] or [str] for key and value. *)
Fixpoint dicts_of_int_or_str (d : TypeDescriptor) : bool :=
  match d with
  | Primitive _ => true
  | ListOf elem => dicts_of_int_or_str elem
  | DictOf key value => int_or_str key && int_or_str value
  end.

(** The value-to-type map of the specification, on type objects. *)
Definition fixed_map (t : pytype) : option string :=
  match t with
  | ty_bool => Some "bool"
  | ty_str => Some "string"
  | ty_int => Some "int"
  | ty_float => Some "float64"
  | typing_List ty_int => Some "[]int"
  | _ => None
  end.

(** The entry of the map, or the placeholder where it has none. *)
Definition mapped_type (t : pytype) : string :=
  match fixed_map t with
  | Some s => s
  | None => "UNKNOWN"
  end.

(** The translator after [pytype_to_gotype(t)]: a line is printed exactly
    when the map has no entry for [t]. *)
Definition looked_up (t : pytype) (self : GoTranslator) : GoTranslator :=
  match fixed_map t with
  | Some _ => self
  | None => printed (TextType "UNKNOWN" t) self
  end.

(** A string with no double quote, backslash or newline. *)
Fixpoint plain (s : string) : bool :=
  match s with
  | EmptyString => true
  | String c rest =>
      negb (Ascii.eqb c dquote) && negb (Ascii.eqb c backslash)
      && negb (Ascii.eqb c newline) && plain rest
  end.

Definition is_list_literal (c : literal) : bool :=
  match c with
  | ListLit _ => true
  | DictLit _ _ => false
  end.

(** The sentence of the specification on the carry-forward of types, for
    lists: an empty list that comes after a non-empty list renders with the
    element type inferred for that list. *)
Definition empty_list_takes_type_of_earlier_list : Prop :=
  forall ext before x rest between self outs,
    gen_all (before ++ ListLit (x :: rest) :: between ++ [ListLit []])%list
            (init ext) = (self, inr outs) ->
    last outs "" = "[]" ++ mapped_type (py_type x) ++ "{}".

(** The sentence of the specification on the recorded types: a call that
    follows the first literal of a problem leaves what was recorded as it
    is. *)
Definition recorded_types_never_overwritten : Prop :=
  forall ext first later self1 r1 self2 r2,
    gen first (init ext) = (self1, r1) ->
    gen later self1 = (self2, r2) ->
    prev_comp_types self2 = prev_comp_types self1.

(** The sentence of the specification on [str] literals: the text returned
    is a string literal of Go that denotes the input. *)
Definition str_literal_denotes_input : Prop :=
  forall s self,
    exists text,
      gen_literal (PyStr s) self = (self, inr text)
      /\ go_string_literal text = Some s.

(** The sentence of the specification on the type mapper: it maps every
    descriptor with mappable leaves as [mapType] says. *)
Definition translate_type_total_on_descriptors : Prop :=
  forall d, translate_type (node d) = inr (mapType d).

(** ** Further vocabulary *)

(** The Go type of a [Dict] component, from the name the annotation spells. *)
Inductive component : string -> string -> Prop :=
| component_int : component "int" "int"
| component_str : component "str" "string".

(** The annotations that have a Go type, with that type. *)
Inductive translatable : annotation -> string -> Prop :=
| tr_int c : translatable (Name "int" c) "int"
| tr_float c : translatable (Name "float" c) "float64"
| tr_bool c : translatable (Name "bool" c) "bool"
| tr_str c : translatable (Name "str" c) "string"
| tr_Any c : translatable (Name "Any" c) "any"
| tr_StrObj k s : component k s -> translatable (StrObj k) s
| tr_List c1 c2 elem s :
    translatable elem s ->
    translatable (Subscript (Name "List" c1) elem c2) ("[]" ++ s)
| tr_Dict c1 c2 c3 c4 c5 k v sk sv :
    component k sk -> component v sv ->
    translatable
      (Subscript (Name "Dict" c1) (Tuple [Name k c2; Name v c3] c4) c5)
      ("map[" ++ sk ++ "]" ++ sv).

(** [List[List[... t ...]]], with [n] times [List]. *)
Fixpoint nested_List (n : nat) (t : annotation) : annotation :=
  match n with
  | O => t
  | S m => Subscript (Name "List" Load) (nested_List m t) Load
  end.

Fixpoint brackets (n : nat) : string :=
  match n with
  | O => ""
  | S m => "[]" ++ brackets m
  end.

(** [after_newlines P s]: what follows each newline of [s] satisfies [P]. *)
Fixpoint after_newlines (P : string -> bool) (s : string) : bool :=
  match s with
  | EmptyString => true
  | String c rest =>
      (if Ascii.eqb c newline then P rest else true) && after_newlines P rest
  end.

Definition starts_with_space (s : string) : bool :=
  match s with
  | EmptyString => false
  | String c _ => is_space c
  end.

Definition no_space (s : string) : bool := negb (starts_with_space s).

(** [s.startswith(p)]. *)
Fixpoint starts_with (p s : string) : bool :=
  match p with
  | EmptyString => true
  | String a p' =>
      match s with
      | EmptyString => false
      | String b s' => Ascii.eqb a b && starts_with p' s'
      end
  end.

Definition is_str (v : pyval) : bool :=
  match v with
  | PyStr _ => true
  | _ => false
  end.

(** [extends self self']: [self'] differs from [self] at most in the
    recorded types and in lines printed after those of [self]. *)
Definition extends (self self' : GoTranslator) : Prop :=
  file_ext self' = file_ext self
  /\ type_ self' = type_ self
  /\ is_candidate_result self' = is_candidate_result self
  /\ exists lines, stdout self' = (stdout self ++ lines)%list.

(** ** The token lists of [automodel.py]

    Of the tokenizer, [Model] reads [pad_token_id] (the constructor makes
    sure that there is a pad token), [bos_token_id], which may be [None],
    and the list [all_special_ids] that the constructor stores in
    [_all_special_token_ids]. *)
Record Model : Type := {
  pad_token_id : Z;
  bos_token_id : option Z;
  _all_special_token_ids : list Z
}.

(** [x in l] on a list of [int]. *)
Fixpoint py_in (x : Z) (l : list Z) : bool :=
  match l with
  | [] => false
  | y :: rest => (x =? y)%Z || py_in x rest
  end.

Definition _is_normal_token_id (self : Model) (token_id : Z) : bool :=
  negb (py_in token_id (_all_special_token_ids self)).

Definition _is_pad_or_bos_token_id (self : Model) (token_id : Z) : bool :=
  if (token_id =? pad_token_id self)%Z then true
  else
    match bos_token_id self with
    | Some bos => if (token_id =? bos)%Z then true else false
    | None => false
    end.

(** [itertools.dropwhile] and [itertools.takewhile], made into lists. *)
Fixpoint dropwhile {A} (p : A -> bool) (l : list A) : list A :=
  match l with
  | [] => []
  | x :: rest => if p x then dropwhile p rest else l
  end.

Fixpoint takewhile {A} (p : A -> bool) (l : list A) : list A :=
  match l with
  | [] => []
  | x :: rest => if p x then x :: takewhile p rest else []
  end.

Definition _remove_padding_and_stop_at_special_tokens (self : Model)
    (token_id_list : list Z) : list Z :=
  let left_padding_removed :=
    dropwhile (_is_pad_or_bos_token_id self) token_id_list in
  let right_specials_removed :=
    takewhile (_is_normal_token_id self) left_padding_removed in
  right_specials_removed.

(** [s.replace(old, new)] for one-character [old] and [new]. *)
Fixpoint replace_char (old new : ascii) (s : string) : string :=
  match s with
  | EmptyString => ""
  | String c rest =>
      String (if Ascii.eqb c old then new else c) (replace_char old new rest)
  end.

(** [s] with every character [c] replaced by [f c]. *)
Fixpoint map_chars (f : ascii -> ascii) (s : string) : string :=
  match s with
  | EmptyString => ""
  | String c rest => String (f c) (map_chars f rest)
  end.

(** The underscore for a slash or a hyphen, and every other character for
    itself. *)
Definition underscored (c : ascii) : ascii :=
  if Ascii.eqb c "/" || Ascii.eqb c "-" then "_"%char else c.

(** The two arguments that [do_name_override] reads; [--name-override] is
    [None] when it is not given. *)
Record Args : Type := { name : string; name_override : option string }.

(** The truth value of an optional [str]. *)
Definition truthy (o : option string) : bool :=
  match o with
  | Some (String _ _) => true
  | _ => false
  end.

Definition do_name_override (args : Args) : string :=
  if truthy (name_override args) then
    match name_override args with
    | Some s => s
    | None => ""
    end
  else replace_char "-" "_" (replace_char "/" "_" (name args)).

(** * Properties *)

(** ** The type mapper *)

Lemma translate_type_StrObj (s : string) :
  translate_type (StrObj s) = translate_type_str s.
Proof. reflexivity. Qed.

(** The equation of the [Dict] case, as the source writes it: key and value
    are translated from the two [id] strings. *)
Lemma translate_type_Dict (k v : string) (c1 c2 c3 c4 c5 : expr_context) :
  translate_type
    (Subscript (Name "Dict" c1) (Tuple [Name k c2; Name v c3] c4) c5)
  = (key <- translate_type (StrObj k) ;;
     value <- translate_type (StrObj v) ;;
     ok ("map[" ++ key ++ "]" ++ value))%result.
Proof. reflexivity. Qed.

Lemma translate_type_List (slice : annotation) (c1 c2 : expr_context) :
  translate_type (Subscript (Name "List" c1) slice c2)
  = (s <- translate_type slice ;; ok ("[]" ++ s))%result.
Proof. reflexivity. Qed.

Lemma int_or_str_node (d : TypeDescriptor) :
  int_or_str d = true ->
  exists id, node d = Name id Load /\ translate_type_str id = inr (mapType d).
Proof.
  destruct d as [[]| |]; simpl; try discriminate; intros _.
  - exists "int". split; reflexivity.
  - exists "str". split; reflexivity.
Qed.

(** C7. An annotation [Union[...]], [Tuple[...]] or [Optional[...]] makes
    [translate_type] raise an exception whose message names the kind, and
    an absent annotation ([None]) makes it raise "implicitly untyped
    argument"; no type string is returned in any of these cases. *)
Theorem translate_type_rejects_unsupported_and_missing :
  (forall slice c1 c2,
      translate_type (Subscript (Name "Union" c1) slice c2)
      = inl (Exception "Union unsupported"))
  /\ (forall slice c1 c2,
         translate_type (Subscript (Name "Tuple" c1) slice c2)
         = inl (Exception "Tuple unsupported"))
  /\ (forall slice c1 c2,
         translate_type (Subscript (Name "Optional" c1) slice c2)
         = inl (Exception "Optional unsupported"))
  /\ translate_type NoneObj = inl (Exception "implicitly untyped argument").
Proof. repeat split. Qed.

(** C6, as stated, fails: [Dict[str, List[int]]] is built from mappable
    primitives, [List] and [Dict], and [translate_type] raises on it. *)
Lemma translate_type_Dict_of_List_raises :
  translate_type (node (DictOf (Primitive p_str) (ListOf (Primitive p_int))))
  = inl (ExceptionAbout "Bad dict: "
           (Tuple [Name "str" Load;
                   Subscript (Name "List" Load) (Name "int" Load) Load] Load))
  /\ ~ translate_type_total_on_descriptors.
Proof.
  split; [reflexivity|].
  intros H.
  specialize (H (DictOf (Primitive p_str) (ListOf (Primitive p_int)))).
  discriminate H.
Qed.

(** C6, amended.  On every descriptor built from the primitives, [List] and
    those [Dict] whose key and value are [int] or [str], [translate_type]
    returns, and returns what [mapType] says; on a [Dict] whose key or value
    is itself a [List] or a [Dict] it raises "Bad dict". *)
Theorem translate_type_on_supported_descriptors :
  (forall d,
      dicts_of_int_or_str d = true ->
      translate_type (node d) = inr (mapType d))
  /\ (forall key value,
         is_primitive key && is_primitive value = false ->
         translate_type (node (DictOf key value))
         = inl (ExceptionAbout "Bad dict: "
                  (Tuple [node key; node value] Load))).
Proof.
  split.
  - induction d as [p|elem IH|key _ value _]; intros Hd.
    + destruct p; reflexivity.
    + cbn [node mapType]. rewrite translate_type_List, (IH Hd). reflexivity.
    + cbn [dicts_of_int_or_str] in Hd.
      apply andb_true_iff in Hd as [Hk Hv].
      destruct (int_or_str_node key Hk) as [k [Ek Tk]].
      destruct (int_or_str_node value Hv) as [v [Ev Tv]].
      cbn [node mapType]. rewrite Ek, Ev, translate_type_Dict.
      rewrite !translate_type_StrObj, Tk, Tv. reflexivity.
  - intros key value H.
    destruct key as [p| |]; destruct value as [q| |];
      try discriminate H; reflexivity.
Qed.

Lemma translate_type_on_supported_descriptors_witness :
  translate_type
    (node (ListOf (DictOf (Primitive p_str) (Primitive p_int))))
  = inr "[]map[string]int"
  /\ translate_type
       (node (DictOf (Primitive p_str) (DictOf (Primitive p_int) (Primitive p_int))))
     = inl (ExceptionAbout "Bad dict: "
              (Tuple [Name "str" Load;
                      Subscript (Name "Dict" Load)
                        (Tuple [Name "int" Load; Name "int" Load] Load) Load]
                 Load)).
Proof.
  destruct translate_type_on_supported_descriptors as [A B].
  split.
  - apply (A (ListOf (DictOf (Primitive p_str) (Primitive p_int)))).
    reflexivity.
  - apply (B (Primitive p_str) (DictOf (Primitive p_int) (Primitive p_int))).
    reflexivity.
Defined.

(** ** The prompt *)

Lemma map_result_fails {A B} (f : A -> result B) (l : list A) (x : A) (e : exn) :
  In x l -> f x = inl e -> exists e', map_result f l = inl e'.
Proof.
  induction l as [|y rest IH]; intros Hin Hx; [destruct Hin|].
  cbn [map_result]. destruct (f y) as [ey|b] eqn:Ey.
  - exists ey. reflexivity.
  - destruct Hin as [->|Hin]; [congruence|].
    destruct (IH Hin Hx) as [e' E']. exists e'.
    cbn [rbind]. rewrite E'. reflexivity.
Qed.

Lemma translate_arg_fails (a : arg_node) (e : exn) :
  translate_type (annotation_of a) = inl e -> translate_arg a = inl e.
Proof. unfold translate_arg. intros ->. reflexivity. Qed.

(** C8. When [translate_type] raises on the annotation of a parameter or on
    the return annotation, [translate_prompt] returns [None]: it does not
    raise, it returns no text, and it prints the exception it caught. *)
Theorem translate_prompt_returns_None_on_type_failure :
  forall name args returns description self,
    (exists a e, In a args /\ translate_type (annotation_of a) = inl e)
    \/ (exists e, translate_type returns = inl e) ->
    exists e,
      translate_prompt name args returns description self
      = (printed (TextExn e)
           (fst (set_type (map annotation_of args, returns) self)),
         inr None).
Proof.
  intros name args returns description self H.
  assert (exists e,
             (arg_strings <- map_result translate_arg args ;;
              retType <- translate_type returns ;;
              ok (arg_strings, retType))%result = inl e) as [e E].
  { destruct H as [[a [e [Hin Ha]]]|[e Hr]].
    - destruct (map_result_fails translate_arg args a e Hin
                  (translate_arg_fails a e Ha)) as [e' E'].
      exists e'. rewrite E'. reflexivity.
    - destruct (map_result translate_arg args) as [e'|ss].
      + exists e'. reflexivity.
      + exists e. cbn [rbind]. rewrite Hr. reflexivity. }
  exists e. unfold translate_prompt, bind. cbn [set_type].
  rewrite E. reflexivity.
Qed.

Lemma translate_prompt_returns_None_on_type_failure_witness :
  exists e,
    translate_prompt "f"
      [{| arg := "x"; annotation_of := Name "int" Load |}]
      (Subscript (Name "Optional" Load) (Name "int" Load) Load)
      "doc" (init "go_test.go")
    = (printed (TextExn e)
         (fst (set_type
                 ([Name "int" Load],
                  Subscript (Name "Optional" Load) (Name "int" Load) Load)
                 (init "go_test.go"))),
       inr None).
Proof.
  apply (translate_prompt_returns_None_on_type_failure "f"
           [{| arg := "x"; annotation_of := Name "int" Load |}]
           (Subscript (Name "Optional" Load) (Name "int" Load) Load)
           "doc" (init "go_test.go")).
  right. exists (Exception "Optional unsupported"). reflexivity.
Defined.

(** ** The literal mapper *)

Lemma pytype_to_gotype_eq (t : pytype) (self : GoTranslator) :
  pytype_to_gotype t self = (looked_up t self, inr (mapped_type t)).
Proof.
  destruct t as [| | | | | | | |a|k v]; try reflexivity.
  destruct a; reflexivity.
Qed.

Lemma prev_comp_types_looked_up (t : pytype) (self : GoTranslator) :
  prev_comp_types (looked_up t self) = prev_comp_types self.
Proof. unfold looked_up. destruct (fixed_map t); reflexivity. Qed.

Lemma fixed_map_None (t : pytype) :
  t <> ty_int -> t <> ty_bool -> t <> ty_str -> t <> ty_float ->
  t <> typing_List ty_int -> fixed_map t = None.
Proof.
  intros Hi Hb Hs Hf Hl.
  destruct t as [| | | | | | | |a|k v]; try reflexivity; try congruence.
  destruct a; try reflexivity; congruence.
Qed.

Lemma gen_list_cons (x : pyval) (rest : list pyval) (self : GoTranslator) :
  gen_list (x :: rest) self
  = ((if (length (prev_comp_types self) <? 1)%nat
      then recorded [mapped_type (py_type x)] (looked_up (py_type x) self)
      else looked_up (py_type x) self),
     (body <- py_join ", " (x :: rest) ;;
      ok ("[]" ++ mapped_type (py_type x) ++ "{" ++ body ++ "}"))%result).
Proof.
  unfold gen_list, bind, get, lift, ret, ok. cbn [length Nat.eqb andb nth].
  rewrite pytype_to_gotype_eq, prev_comp_types_looked_up.
  destruct (length (prev_comp_types self) <? 1)%nat;
    cbn [set_prev_comp_types recorded fst];
    destruct (py_join ", " (x :: rest)); reflexivity.
Qed.

Lemma gen_dict_cons (k : pyval) (ks : list pyval) (v : pyval) (vs : list pyval)
    (self : GoTranslator) :
  gen_dict (k :: ks) (v :: vs) self
  = ((if (length (prev_comp_types self) <? 2)%nat
      then recorded [mapped_type (py_type k); mapped_type (py_type v)]
             (looked_up (py_type v) (looked_up (py_type k) self))
      else looked_up (py_type v) (looked_up (py_type k) self)),
     (pairs <- map_result format_pair (combine (k :: ks) (v :: vs)) ;;
      ok ("map[" ++ mapped_type (py_type k) ++ "]"
          ++ mapped_type (py_type v) ++ "{" ++ join ", " pairs ++ "}"))%result).
Proof.
  unfold gen_dict, bind, get, lift, ret, ok.
  cbn [length Nat.eqb andb orb nth].
  rewrite !pytype_to_gotype_eq, !prev_comp_types_looked_up.
  cbn [fst snd].
  destruct (length (prev_comp_types self) <? 2)%nat;
    cbn [set_prev_comp_types recorded fst];
    destruct (map_result format_pair (combine (k :: ks) (v :: vs)));
    reflexivity.
Qed.

(** C9. For every type object other than [int], [bool], [str], [float] and
    [List[int]], [pytype_to_gotype] prints a line and returns the placeholder
    "UNKNOWN"; it does not raise. *)
Theorem pytype_to_gotype_unknown :
  forall t self,
    t <> ty_int -> t <> ty_bool -> t <> ty_str -> t <> ty_float ->
    t <> typing_List ty_int ->
    pytype_to_gotype t self
    = (printed (TextType "UNKNOWN" t) self, inr "UNKNOWN").
Proof.
  intros t self Hi Hb Hs Hf Hl.
  rewrite pytype_to_gotype_eq. unfold looked_up, mapped_type.
  rewrite (fixed_map_None t Hi Hb Hs Hf Hl). reflexivity.
Qed.

Lemma pytype_to_gotype_unknown_witness :
  pytype_to_gotype ty_list (init "go_test.go")
  = (printed (TextType "UNKNOWN" ty_list) (init "go_test.go"), inr "UNKNOWN").
Proof.
  apply (pytype_to_gotype_unknown ty_list (init "go_test.go"));
    discriminate.
Defined.


(** C2.  [gen_literal(None)] returns the text "None", not "nil": the test
    [type(c) == None] compares a type object with [None] and never holds,
    so the call ends in [repr(c)]. *)
Theorem gen_literal_None_returns_repr :
  forall self,
    gen_literal PyNone self = (self, inr "None")
    /\ gen_literal PyNone self <> (self, inr "nil").
Proof. intros self. split; [reflexivity|discriminate]. Qed.

Lemma drop_last_app (s : string) (c : ascii) :
  drop_last (s ++ String c "") = Some (s, c).
Proof.
  induction s as [|d s IH]; [reflexivity|].
  cbn [append drop_last]. rewrite IH. reflexivity.
Qed.

Lemma go_chars_plain (s : string) : plain s = true -> go_chars s = Some s.
Proof.
  induction s as [|c s IH]; [reflexivity|].
  cbn [plain go_chars]. intros H.
  apply andb_true_iff in H as [H Hs].
  apply andb_true_iff in H as [H Hn].
  apply andb_true_iff in H as [Hq Hb].
  apply negb_true_iff in Hq, Hb, Hn.
  rewrite Hq, Hn, Hb, (IH Hs). reflexivity.
Qed.

(** C5, as stated, fails: nothing is escaped.  For the three characters
    [a"b] the text returned, ["a"b"], is not a string literal; for the text
    [a\] it is the unterminated ["a\"]. *)
Lemma gen_literal_str_with_quote_is_no_literal :
  gen_literal (PyStr (String "a" (String dquote "b"))) (init "go_test.go")
  = (init "go_test.go",
     inr (String dquote (String "a" (String dquote (String "b" DQ)))))
  /\ go_string_literal
       (String dquote (String "a" (String dquote (String "b" DQ)))) = None
  /\ gen_literal (PyStr (String "a" (String backslash ""))) (init "go_test.go")
     = (init "go_test.go",
        inr (String dquote (String "a" (String backslash DQ))))
  /\ go_string_literal (String dquote (String "a" (String backslash DQ))) = None
  /\ ~ str_literal_denotes_input.
Proof.
  repeat split.
  intros H.
  destruct (H (String "a" (String dquote "b")) (init "go_test.go"))
    as [text [E D]].
  injection E as <-. discriminate D.
Qed.

(** C5, amended.  For every [str], [gen_literal] returns the text between
    two double quotes, with no character changed; when the text has no
    double quote, backslash or newline, this is a string literal of Go that
    denotes the input. *)
Theorem gen_literal_str_quotes_verbatim :
  forall s self,
    gen_literal (PyStr s) self = (self, inr (DQ ++ s ++ DQ))
    /\ (plain s = true -> go_string_literal (DQ ++ s ++ DQ) = Some s).
Proof.
  intros s self. split; [reflexivity|].
  intros Hs. unfold DQ. cbn [append go_string_literal].
  rewrite Ascii.eqb_refl, drop_last_app, Ascii.eqb_refl.
  apply go_chars_plain, Hs.
Qed.

Lemma gen_literal_str_quotes_verbatim_witness :
  gen_literal (PyStr "abc") (init "go_test.go")
  = (init "go_test.go", inr (DQ ++ "abc" ++ DQ))
  /\ go_string_literal (DQ ++ "abc" ++ DQ) = Some "abc".
Proof.
  destruct (gen_literal_str_quotes_verbatim "abc" (init "go_test.go"))
    as [E L].
  split; [exact E|apply L; reflexivity].
Defined.

(** *** Empty literals and the recorded types *)

Lemma gen_list_nil_known (self : GoTranslator) (t : string) (ts : list string) :
  prev_comp_types self = t :: ts ->
  gen_list [] self = (self, inr ("[]" ++ t ++ "{}")).
Proof.
  intros H. unfold gen_list, bind, get, lift, ret, ok.
  cbn. rewrite H. cbn. rewrite H. reflexivity.
Qed.

Lemma gen_list_nil_unknown (self : GoTranslator) :
  prev_comp_types self = [] ->
  gen_list [] self
  = (recorded ["int"] (printed (Text "bad list, empty") self), inr "[]int{}").
Proof.
  intros H. unfold gen_list, bind, get, lift, ret, ok.
  cbn. rewrite H. cbn. rewrite H. reflexivity.
Qed.

Lemma combine_empty (keys values : list pyval) :
  keys = [] \/ values = [] -> combine keys values = [].
Proof. intros [->| ->]; [reflexivity|destruct keys; reflexivity]. Qed.

Lemma length_empty (keys values : list pyval) :
  keys = [] \/ values = [] ->
  ((length keys =? 0)%nat || (length values =? 0)%nat) = true.
Proof. intros [->| ->]; [reflexivity|apply orb_true_r]. Qed.

Lemma gen_dict_empty_known (self : GoTranslator) (k v : string)
    (ts : list string) (keys values : list pyval) :
  prev_comp_types self = k :: v :: ts ->
  keys = [] \/ values = [] ->
  gen_dict keys values self = (self, inr ("map[" ++ k ++ "]" ++ v ++ "{}")).
Proof.
  intros H He. unfold gen_dict, bind, get, ret, ok.
  rewrite (length_empty keys values He), (combine_empty keys values He), H.
  cbn. rewrite H. reflexivity.
Qed.

Lemma gen_dict_empty_unknown (self : GoTranslator) (keys values : list pyval) :
  (length (prev_comp_types self) < 2)%nat ->
  keys = [] \/ values = [] ->
  gen_dict keys values self
  = (recorded ["string"; "int"] (printed (Text "bad dict, empty") self),
     inr "map[string]int{}").
Proof.
  intros H He. unfold gen_dict, bind, get, ret, ok.
  rewrite (length_empty keys values He), (combine_empty keys values He).
  destruct (prev_comp_types self) as [|a [|b ts]] eqn:E;
    cbn in H; try lia; cbn; rewrite E; reflexivity.
Qed.

Lemma gen_list_keeps (l : list pyval) (self : GoTranslator) :
  prev_comp_types self <> [] ->
  prev_comp_types (fst (gen_list l self)) = prev_comp_types self.
Proof.
  intros H. destruct (prev_comp_types self) as [|t ts] eqn:E; [congruence|].
  destruct l as [|x rest].
  - rewrite (gen_list_nil_known self t ts E). exact E.
  - rewrite gen_list_cons, E. cbn [length Nat.ltb Nat.leb fst].
    rewrite prev_comp_types_looked_up. exact E.
Qed.

Lemma gen_list_first (x : pyval) (rest : list pyval) (self : GoTranslator) :
  prev_comp_types self = [] ->
  prev_comp_types (fst (gen_list (x :: rest) self)) = [mapped_type (py_type x)].
Proof. intros H. rewrite gen_list_cons, H. reflexivity. Qed.

Lemma gen_dict_first (k : pyval) (ks : list pyval) (v : pyval)
    (vs : list pyval) (self : GoTranslator) :
  (length (prev_comp_types self) < 2)%nat ->
  prev_comp_types (fst (gen_dict (k :: ks) (v :: vs) self))
  = [mapped_type (py_type k); mapped_type (py_type v)].
Proof.
  intros H. rewrite gen_dict_cons.
  assert ((length (prev_comp_types self) <? 2)%nat = true) as ->
    by (apply Nat.ltb_lt; exact H).
  reflexivity.
Qed.

Lemma empty_or_cons (keys values : list pyval) :
  (keys = [] \/ values = [])
  \/ exists k ks v vs, keys = k :: ks /\ values = v :: vs.
Proof.
  destruct keys as [|k ks]; [left; left; reflexivity|].
  destruct values as [|v vs]; [left; right; reflexivity|].
  right. exists k, ks, v, vs. split; reflexivity.
Qed.

Lemma gen_dict_keeps (keys values : list pyval) (self : GoTranslator) :
  (2 <= length (prev_comp_types self))%nat ->
  prev_comp_types (fst (gen_dict keys values self)) = prev_comp_types self.
Proof.
  intros H.
  destruct (empty_or_cons keys values) as [He|[k [ks [v [vs [-> ->]]]]]].
  - destruct (prev_comp_types self) as [|a [|b ts]] eqn:E;
      [cbn in H; lia|cbn in H; lia|].
    rewrite (gen_dict_empty_known self a b ts keys values E He). exact E.
  - rewrite gen_dict_cons.
    assert ((length (prev_comp_types self) <? 2)%nat = false) as ->
      by (apply Nat.ltb_ge; exact H).
    cbn [fst]. rewrite !prev_comp_types_looked_up. reflexivity.
Qed.

Lemma gen_keeps_two (c : literal) (self : GoTranslator) :
  (2 <= length (prev_comp_types self))%nat ->
  prev_comp_types (fst (gen c self)) = prev_comp_types self.
Proof.
  intros H. destruct c as [l|keys values]; cbn [gen].
  - apply gen_list_keeps. intros E. rewrite E in H. cbn in H. lia.
  - apply gen_dict_keeps, H.
Qed.

Lemma gen_all_keeps_two (cs : list literal) (self : GoTranslator) :
  (2 <= length (prev_comp_types self))%nat ->
  prev_comp_types (fst (gen_all cs self)) = prev_comp_types self.
Proof.
  revert self. induction cs as [|c cs IH]; intros self H; [reflexivity|].
  cbn [gen_all]. unfold bind at 1.
  pose proof (gen_keeps_two c self H) as Hc.
  destruct (gen c self) as [self1 [e|s]]; cbn [fst] in Hc; [exact Hc|].
  unfold bind at 1.
  assert (2 <= length (prev_comp_types self1))%nat as H1 by (rewrite Hc; exact H).
  pose proof (IH self1 H1) as Hcs.
  destruct (gen_all cs self1) as [self2 [e|ss]]; unfold ret;
    cbn [fst] in Hcs |- *; rewrite Hcs; exact Hc.
Qed.

(** What a successful [gen_all] returns for a sequence that ends with [c]:
    the texts of the literals before, then the text of [c], rendered by the
    translator as the literals before left it. *)
Lemma gen_all_snoc (cs : list literal) (c : literal) (self self' : GoTranslator)
    (outs : list string) :
  gen_all (cs ++ [c])%list self = (self', inr outs) ->
  exists self1 before s,
    gen_all cs self = (self1, inr before)
    /\ gen c self1 = (self', inr s)
    /\ outs = (before ++ [s])%list.
Proof.
  revert self outs. induction cs as [|d cs IH]; intros self outs H.
  - cbn [app gen_all] in H. unfold bind, ret, ok in H.
    destruct (gen c self) as [self1 [e|s]] eqn:E; [discriminate H|].
    injection H as <- <-.
    exists self, [], s. repeat split. exact E.
  - cbn [app gen_all] in H. unfold bind at 1 in H.
    destruct (gen d self) as [self1 [e|s]] eqn:E; [discriminate H|].
    unfold bind at 1 in H.
    destruct (gen_all (cs ++ [c])%list self1) as [self2 [e|ss]] eqn:Ecs;
      [discriminate H|].
    unfold ret, ok in H. injection H as <- <-.
    destruct (IH self1 ss Ecs) as [selfm [before [t [Eb [Ec ->]]]]].
    exists selfm, (s :: before), t. repeat split; [|exact Ec].
    cbn [gen_all]. unfold bind at 1. rewrite E.
    unfold bind at 1. rewrite Eb. reflexivity.
Qed.

Lemma gen_all_lists_keep (cs : list literal) (self : GoTranslator) :
  forallb is_list_literal cs = true ->
  prev_comp_types self <> [] ->
  prev_comp_types (fst (gen_all cs self)) = prev_comp_types self.
Proof.
  revert self. induction cs as [|c cs IH]; intros self Hl H; [reflexivity|].
  cbn [forallb] in Hl. apply andb_true_iff in Hl as [Hc Hl].
  destruct c as [l|keys values]; [|discriminate Hc].
  cbn [gen_all gen]. unfold bind at 1.
  pose proof (gen_list_keeps l self H) as Hk.
  destruct (gen_list l self) as [self1 [e|s]]; cbn [fst] in Hk; [exact Hk|].
  unfold bind at 1.
  assert (prev_comp_types self1 <> []) as H1 by (rewrite Hk; exact H).
  pose proof (IH self1 Hl H1) as Hcs.
  destruct (gen_all cs self1) as [self2 [e|ss]]; unfold ret;
    cbn [fst] in Hcs |- *; rewrite Hcs; exact Hk.
Qed.

Lemma gen_all_cons (c : literal) (cs : list literal) (self self' : GoTranslator)
    (outs : list string) :
  gen_all (c :: cs) self = (self', inr outs) ->
  exists self1 s ss,
    gen c self = (self1, inr s)
    /\ gen_all cs self1 = (self', inr ss)
    /\ outs = s :: ss.
Proof.
  intros H. cbn [gen_all] in H. unfold bind at 1 in H.
  destruct (gen c self) as [self1 [e|s]] eqn:E; [discriminate H|].
  unfold bind at 1 in H.
  destruct (gen_all cs self1) as [self2 [e|ss]] eqn:Ecs; [discriminate H|].
  unfold ret, ok in H. injection H as <- <-.
  exists self1, s, ss. repeat split. exact Ecs.
Qed.

(** C3, as stated, fails.  In the problem whose lists are [[]], [["a"]],
    [[]], in this order, the last list is empty and comes after a non-empty
    list of element type "string", and it renders with "int". *)
Lemma empty_list_after_other_type_counterexample :
  gen_all [ListLit []; ListLit [PyStr "a"]; ListLit []] (init "go_test.go")
  = (recorded ["int"] (printed (Text "bad list, empty") (init "go_test.go")),
     inr ["[]int{}"; "[]string{a}"; "[]int{}"])
  /\ ~ empty_list_takes_type_of_earlier_list.
Proof.
  split; [reflexivity|].
  intros H.
  pose proof (H "go_test.go" [ListLit []] (PyStr "a") [] [] _ _ eq_refl) as C.
  discriminate C.
Qed.

(** C3, amended.  An empty list renders with [prev_comp_types[0]] when
    [prev_comp_types] holds something, and otherwise with "int", after
    printing a line (and "int" is then recorded).  Consequently: in a
    problem whose first literal is a non-empty list and whose literals after
    it are lists, an empty list renders with the element type of the first
    list; and in a problem whose first literal is a dict with a first key
    and value, an empty dict that comes later renders with the key and value
    types of that dict, whatever literals lie between. *)
Theorem empty_literal_takes_recorded_type :
  (forall self t ts,
      prev_comp_types self = t :: ts ->
      gen_list [] self = (self, inr ("[]" ++ t ++ "{}")))
  /\ (forall self,
         prev_comp_types self = [] ->
         gen_list [] self
         = (recorded ["int"] (printed (Text "bad list, empty") self),
            inr "[]int{}"))
  /\ (forall ext x rest between self outs,
         forallb is_list_literal between = true ->
         gen_all (ListLit (x :: rest) :: between ++ [ListLit []])%list
                 (init ext) = (self, inr outs) ->
         last outs "" = "[]" ++ mapped_type (py_type x) ++ "{}")
  /\ (forall ext k ks v vs between keys values self outs,
         keys = [] \/ values = [] ->
         gen_all (DictLit (k :: ks) (v :: vs)
                    :: between ++ [DictLit keys values])%list
                 (init ext) = (self, inr outs) ->
         last outs ""
         = "map[" ++ mapped_type (py_type k) ++ "]"
           ++ mapped_type (py_type v) ++ "{}").
Proof.
  split; [exact gen_list_nil_known|].
  split; [exact gen_list_nil_unknown|].
  split.
  - intros ext x rest between self outs Hl H.
    apply gen_all_cons in H as [self1 [s [ss [E1 [E2 ->]]]]].
    apply gen_all_snoc in E2 as [self2 [before [t [Eb [Et ->]]]]].
    pose proof (gen_list_first x rest (init ext) eq_refl) as P1.
    cbn [gen] in E1. rewrite E1 in P1. cbn [fst] in P1.
    assert (prev_comp_types self1 <> []) as N1 by (rewrite P1; discriminate).
    pose proof (gen_all_lists_keep between self1 Hl N1) as P2.
    rewrite Eb, P1 in P2. cbn [fst] in P2.
    cbn [gen] in Et. rewrite (gen_list_nil_known self2 _ _ P2) in Et.
    injection Et as _ <-.
    match goal with
    | |- last (s :: (before ++ [?z])%list) "" = _ =>
        change (s :: (before ++ [z])%list) with ((s :: before) ++ [z])%list
    end.
    apply last_last.
  - intros ext k ks v vs between keys values self outs He H.
    apply gen_all_cons in H as [self1 [s [ss [E1 [E2 ->]]]]].
    apply gen_all_snoc in E2 as [self2 [before [t [Eb [Et ->]]]]].
    assert (length (prev_comp_types (init ext)) < 2)%nat as L0 by (cbn; lia).
    pose proof (gen_dict_first k ks v vs (init ext) L0) as P1.
    cbn [gen] in E1. rewrite E1 in P1. cbn [fst] in P1.
    assert (2 <= length (prev_comp_types self1))%nat as N1
      by (rewrite P1; cbn; lia).
    pose proof (gen_all_keeps_two between self1 N1) as P2.
    rewrite Eb, P1 in P2. cbn [fst] in P2.
    cbn [gen] in Et.
    rewrite (gen_dict_empty_known self2 _ _ _ keys values P2 He) in Et.
    injection Et as _ <-.
    match goal with
    | |- last (s :: (before ++ [?z])%list) "" = _ =>
        change (s :: (before ++ [z])%list) with ((s :: before) ++ [z])%list
    end.
    apply last_last.
Qed.

Lemma empty_literal_takes_recorded_type_witness :
  gen_list [] (recorded ["string"] (init "go_test.go"))
  = (recorded ["string"] (init "go_test.go"), inr "[]string{}")
  /\ gen_list [] (init "go_test.go")
     = (recorded ["int"]
          (printed (Text "bad list, empty") (init "go_test.go")),
        inr "[]int{}")
  /\ last ["[]string{a, b}"; "[]string{c}"; "[]string{}"] "" = "[]string{}"
  /\ last ["map[int]bool{1: True}"; "[]string{c}"; "map[int]bool{}"] ""
     = "map[int]bool{}".
Proof.
  destruct empty_literal_takes_recorded_type as [A [B [C D]]].
  split; [|split; [|split]].
  - apply (A (recorded ["string"] (init "go_test.go")) "string" []).
    reflexivity.
  - apply (B (init "go_test.go")). reflexivity.
  - apply (C "go_test.go" (PyStr "a") [PyStr "b"] [ListLit [PyStr "c"]]
             (recorded ["string"] (init "go_test.go"))
             ["[]string{a, b}"; "[]string{c}"; "[]string{}"]);
      reflexivity.
  - apply (D "go_test.go" (PyInt 1) [] (PyBool true) []
             [ListLit [PyStr "c"]] [] []
             (recorded ["int"; "bool"] (init "go_test.go"))
             ["map[int]bool{1: True}"; "[]string{c}"; "map[int]bool{}"]).
    + left. reflexivity.
    + reflexivity.
Defined.

(** C4, as stated, fails.  After the list [["a"]] has recorded "string", the
    dict [{1: 2}] replaces what was recorded with "int", "int". *)
Lemma recorded_type_overwritten_counterexample :
  prev_comp_types
    (fst (gen (ListLit [PyStr "a"]) (init "go_test.go"))) = ["string"]
  /\ prev_comp_types
       (fst (gen (DictLit [PyInt 1] [PyInt 2])
               (fst (gen (ListLit [PyStr "a"]) (init "go_test.go")))))
     = ["int"; "int"]
  /\ ~ recorded_types_never_overwritten.
Proof.
  split; [reflexivity|]. split; [reflexivity|].
  intros H.
  pose proof (H "go_test.go" (ListLit [PyStr "a"])
                (DictLit [PyInt 1] [PyInt 2]) _ _ _ _ eq_refl eq_refl) as C.
  discriminate C.
Qed.

(** C4, amended.  The first literal of a problem records the type or types
    it has resolved.  With nothing recorded, [gen_list] records one entry:
    "int" for an empty list, and for a non-empty list the entry of the map
    for the type of its first item.  With fewer than two entries recorded,
    [gen_dict] records two: "string" and "int" for an empty dict, and
    otherwise the entries of the map for the types of its first key and its
    first value.  [gen_list] leaves a [prev_comp_types] that holds something
    as it is, and [gen_dict] leaves one that holds two entries as it is, so
    that nothing changes any more once two entries are recorded; the single
    entry that a list has recorded is replaced by the next [gen_dict]. *)
Theorem recorded_types_kept_once_complete :
  (forall self,
      prev_comp_types self = [] ->
      prev_comp_types (fst (gen_list [] self)) = ["int"])
  /\ (forall x rest self,
         prev_comp_types self = [] ->
         prev_comp_types (fst (gen_list (x :: rest) self))
         = [mapped_type (py_type x)])
  /\ (forall keys values self,
         (length (prev_comp_types self) < 2)%nat ->
         keys = [] \/ values = [] ->
         prev_comp_types (fst (gen_dict keys values self)) = ["string"; "int"])
  /\ (forall k ks v vs self,
         (length (prev_comp_types self) < 2)%nat ->
         prev_comp_types (fst (gen_dict (k :: ks) (v :: vs) self))
         = [mapped_type (py_type k); mapped_type (py_type v)])
  /\ (forall l self,
         prev_comp_types self <> [] ->
         prev_comp_types (fst (gen_list l self)) = prev_comp_types self)
  /\ (forall keys values self,
         (2 <= length (prev_comp_types self))%nat ->
         prev_comp_types (fst (gen_dict keys values self))
         = prev_comp_types self)
  /\ (forall cs self,
         (2 <= length (prev_comp_types self))%nat ->
         prev_comp_types (fst (gen_all cs self)) = prev_comp_types self).
Proof.
  split; [|split; [|split; [|split; [|split; [|split]]]]].
  - intros self H. rewrite (gen_list_nil_unknown self H). reflexivity.
  - intros x rest self H. apply gen_list_first, H.
  - intros keys values self H He.
    rewrite (gen_dict_empty_unknown self keys values H He). reflexivity.
  - intros k ks v vs self H. apply gen_dict_first, H.
  - exact gen_list_keeps.
  - exact gen_dict_keeps.
  - exact gen_all_keeps_two.
Qed.

Lemma recorded_types_kept_once_complete_witness :
  prev_comp_types (fst (gen_list [] (init "go_test.go"))) = ["int"]
  /\ prev_comp_types (fst (gen_list [PyStr "a"] (init "go_test.go")))
     = [mapped_type (py_type (PyStr "a"))]
  /\ prev_comp_types
       (fst (gen_dict [] [] (recorded ["bool"] (init "go_test.go"))))
     = ["string"; "int"]
  /\ prev_comp_types
       (fst (gen_dict [PyInt 1] [PyInt 2]
               (recorded ["string"] (init "go_test.go"))))
     = [mapped_type (py_type (PyInt 1)); mapped_type (py_type (PyInt 2))]
  /\ prev_comp_types
       (fst (gen_list [PyStr "a"] (recorded ["int"] (init "go_test.go"))))
     = ["int"]
  /\ prev_comp_types
       (fst (gen_dict [PyStr "a"] [PyStr "b"]
               (recorded ["int"; "bool"] (init "go_test.go"))))
     = ["int"; "bool"]
  /\ prev_comp_types
       (fst (gen_all [ListLit []; DictLit [PyStr "a"] [PyStr "b"]]
               (recorded ["int"; "bool"] (init "go_test.go"))))
     = ["int"; "bool"].
Proof.
  destruct recorded_types_kept_once_complete as [A [B [C [D [E [F G]]]]]].
  split; [|split; [|split; [|split; [|split; [|split]]]]].
  - apply (A (init "go_test.go")). reflexivity.
  - apply (B (PyStr "a") [] (init "go_test.go")). reflexivity.
  - apply (C [] [] (recorded ["bool"] (init "go_test.go"))).
    + cbn. lia.
    + left. reflexivity.
  - apply (D (PyInt 1) [] (PyInt 2) []
             (recorded ["string"] (init "go_test.go"))).
    cbn. lia.
  - apply (E [PyStr "a"] (recorded ["int"] (init "go_test.go"))).
    discriminate.
  - apply (F [PyStr "a"] [PyStr "b"]
             (recorded ["int"; "bool"] (init "go_test.go"))).
    cbn. lia.
  - apply (G [ListLit []; DictLit [PyStr "a"] [PyStr "b"]]
             (recorded ["int"; "bool"] (init "go_test.go"))).
    cbn. lia.
Defined.

(** C10. The recorded types are used whatever the shape of the literal that
    recorded them.  With two entries recorded (as a dict leaves them), an
    empty list renders with the first, the key type.  With one entry
    recorded (as a list leaves it), an empty dict prints a line, renders
    with "string" and "int", and stores these two in place of the entry. *)
Theorem carry_forward_ignores_shape :
  (forall self k v,
      prev_comp_types self = [k; v] ->
      gen_list [] self = (self, inr ("[]" ++ k ++ "{}")))
  /\ (forall self t keys values,
         prev_comp_types self = [t] ->
         keys = [] \/ values = [] ->
         gen_dict keys values self
         = (recorded ["string"; "int"]
              (printed (Text "bad dict, empty") self),
            inr "map[string]int{}"))
  /\ (forall ext k ks v vs,
         prev_comp_types (fst (gen_dict (k :: ks) (v :: vs) (init ext)))
         = [mapped_type (py_type k); mapped_type (py_type v)])
  /\ (forall ext x rest,
         prev_comp_types (fst (gen_list (x :: rest) (init ext)))
         = [mapped_type (py_type x)]).
Proof.
  split; [|split; [|split]].
  - intros self k v H. exact (gen_list_nil_known self k [v] H).
  - intros self t keys values H He.
    apply gen_dict_empty_unknown; [rewrite H; cbn; lia|exact He].
  - intros ext k ks v vs. apply gen_dict_first. cbn. lia.
  - intros ext x rest. apply gen_list_first. reflexivity.
Qed.

Lemma carry_forward_ignores_shape_witness :
  gen_list [] (fst (gen_dict [PyInt 1] [PyBool true] (init "go_test.go")))
  = (fst (gen_dict [PyInt 1] [PyBool true] (init "go_test.go")),
     inr "[]int{}")
  /\ gen_dict [] [] (fst (gen_list [PyStr "a"] (init "go_test.go")))
     = (recorded ["string"; "int"]
          (printed (Text "bad dict, empty")
             (fst (gen_list [PyStr "a"] (init "go_test.go")))),
        inr "map[string]int{}").
Proof.
  destruct carry_forward_ignores_shape as [A [B _]].
  split.
  - apply (A (fst (gen_dict [PyInt 1] [PyBool true] (init "go_test.go")))
             "int" "bool").
    reflexivity.
  - apply (B (fst (gen_list [PyStr "a"] (init "go_test.go"))) "string" [] []).
    + reflexivity.
    + left. reflexivity.
Defined.

(** * Further properties *)

(** ** [translate_type] *)

Ltac string_case id lit H :=
  destruct (String.eqb id lit) eqn:H;
  [apply String.eqb_eq in H; subst id|].

Lemma translate_type_str_component (k s : string) :
  translate_type_str k = inr s <-> component k s.
Proof.
  unfold translate_type_str. split.
  - string_case k "int" E1; [intros [= <-]; constructor|].
    string_case k "str" E2; [intros [= <-]; constructor|discriminate].
  - intros []; reflexivity.
Qed.

Lemma translatable_sound (t : annotation) (s : string) :
  translate_type t = inr s -> translatable t s.
Proof.
  revert s.
  induction t as [id c|value _ slice IH c|elts c|value _ attr c|v|k|];
    intros s H; cbn [translate_type] in H; try discriminate H.
  - string_case id "int" E1; [injection H as <-; constructor|].
    string_case id "float" E2; [injection H as <-; constructor|].
    string_case id "bool" E3; [injection H as <-; constructor|].
    string_case id "str" E4; [injection H as <-; constructor|].
    string_case id "Any" E5; [injection H as <-; constructor|discriminate H].
  - destruct value as [id c1| | | | | |]; try discriminate H.
    string_case id "List" E1.
    { destruct (translate_type slice) as [e|s'] eqn:Es; [discriminate H|].
      injection H as <-. constructor. apply IH. reflexivity. }
    string_case id "Union" E2; [discriminate H|].
    string_case id "Tuple" E3; [discriminate H|].
    string_case id "Dict" E4; [|string_case id "Optional" E5; discriminate H].
    destruct slice as [| |[|[k c2| | | | | |] [|[v c3| | | | | |] [|]]] c4| | | |];
      try discriminate H.
    destruct (translate_type_str k) as [e|sk] eqn:Ek; [discriminate H|].
    destruct (translate_type_str v) as [e|sv] eqn:Ev; [discriminate H|].
    injection H as <-.
    constructor; apply translate_type_str_component; assumption.
  - constructor. apply translate_type_str_component. exact H.
Qed.

Lemma translatable_complete (t : annotation) (s : string) :
  translatable t s -> translate_type t = inr s.
Proof.
  induction 1 as [c|c|c|c|c|k s Hk|c1 c2 elem s _ IH|c1 c2 c3 c4 c5 k v sk sv Hk Hv];
    try reflexivity.
  - apply translate_type_str_component, Hk.
  - rewrite translate_type_List, IH. reflexivity.
  - rewrite translate_type_Dict, !translate_type_StrObj.
    apply translate_type_str_component in Hk, Hv. rewrite Hk, Hv. reflexivity.
Qed.

(** X1. [translate_type] returns a Go type exactly for the annotations made
    of the names [int], [float], [bool], [str] and [Any], of [List[T]] for
    such a [T], and of [Dict[K, V]] where [K] and [V] are the names [int]
    or [str]; on every other annotation it raises. *)
Theorem translate_type_returns_iff_translatable :
  forall t s, translate_type t = inr s <-> translatable t s.
Proof.
  intros t s. split; [apply translatable_sound|apply translatable_complete].
Qed.

(** X2. A [Dict[K, V]] whose components are names translates exactly when
    both names are [int] or [str]: the names [float], [bool] and [Any], which
    translate on their own, make it raise "unknown annotation". *)
Theorem translate_type_Dict_components :
  forall k v c1 c2 c3 c4 c5,
    let t := Subscript (Name "Dict" c1) (Tuple [Name k c2; Name v c3] c4) c5 in
    ((exists s, translate_type t = inr s)
     <-> (k = "int" \/ k = "str") /\ (v = "int" \/ v = "str"))
    /\ (k <> "int" -> k <> "str" ->
        translate_type t = inl (ExceptionAbout "unknown annotation: " (StrObj k)))
    /\ ((k = "int" \/ k = "str") -> v <> "int" -> v <> "str" ->
        translate_type t = inl (ExceptionAbout "unknown annotation: " (StrObj v))).
Proof.
  intros k v c1 c2 c3 c4 c5 t. subst t.
  rewrite translate_type_Dict, !translate_type_StrObj.
  unfold translate_type_str.
  split; [split|split].
  - intros [s H].
    destruct (String.eqb k "int") eqn:E1; destruct (String.eqb k "str") eqn:E2;
      destruct (String.eqb v "int") eqn:E3;
      destruct (String.eqb v "str") eqn:E4;
      try discriminate H;
      repeat match goal with
             | E : String.eqb _ _ = true |- _ => apply String.eqb_eq in E
             end; auto.
  - intros [[-> | ->] [-> | ->]]; eexists; reflexivity.
  - intros H1 H2.
    apply String.eqb_neq in H1, H2. rewrite H1, H2. reflexivity.
  - intros Hk H1 H2.
    apply String.eqb_neq in H1, H2. rewrite H1, H2.
    destruct Hk as [-> | ->]; reflexivity.
Qed.

Lemma translate_type_Dict_components_witness :
  translate_type
    (Subscript (Name "Dict" Load)
       (Tuple [Name "float" Load; Name "int" Load] Load) Load)
  = inl (ExceptionAbout "unknown annotation: " (StrObj "float"))
  /\ translate_type
       (Subscript (Name "Dict" Load)
          (Tuple [Name "str" Load; Name "bool" Load] Load) Load)
     = inl (ExceptionAbout "unknown annotation: " (StrObj "bool")).
Proof.
  split.
  - apply (translate_type_Dict_components "float" "int" Load Load Load Load Load);
      discriminate.
  - apply (translate_type_Dict_components "str" "bool" Load Load Load Load Load);
      [right; reflexivity|discriminate|discriminate].
Defined.

(** X3. Through any number of [List], the element decides: when the element
    translates to [s], [n] nested [List] give [s] after [n] times "[]", and
    when the element raises, the same exception comes out. *)
Theorem translate_type_nested_List :
  forall n t,
    translate_type (nested_List n t)
    = match translate_type t with
      | inl e => inl e
      | inr s => inr (brackets n ++ s)
      end.
Proof.
  induction n as [|n IH]; intros t.
  - cbn [nested_List brackets]. destruct (translate_type t); reflexivity.
  - cbn [nested_List brackets]. rewrite translate_type_List, IH.
    destruct (translate_type t); reflexivity.
Qed.

(** ** [translate_prompt] *)

Lemma map_result_inr {A B} (f : A -> result B) (l : list A) (ys : list B) :
  map_result f l = inr ys <-> Forall2 (fun x y => f x = inr y) l ys.
Proof.
  revert ys. induction l as [|x rest IH]; intros ys; cbn [map_result].
  - split.
    + intros [= <-]. constructor.
    + intros H. inversion H. reflexivity.
  - split.
    + destruct (f x) as [e|y] eqn:Ex; [discriminate|]. cbn [rbind].
      destruct (map_result f rest) as [e|ys'] eqn:Er; [discriminate|].
      intros [= <-]. constructor; [exact Ex|]. apply IH. reflexivity.
    + intros H. inversion H as [|x' y l' ys' Hx Hr]; subst.
      rewrite Hx. cbn [rbind].
      apply IH in Hr. rewrite Hr. reflexivity.
Qed.

Lemma map_result_inl {A B} (f : A -> result B) (l : list A) (e : exn) :
  map_result f l = inl e -> exists x, In x l /\ f x = inl e.
Proof.
  induction l as [|x rest IH]; cbn [map_result]; [discriminate|].
  destruct (f x) as [ex|y] eqn:Ex.
  - intros [= <-]. exists x. split; [left; reflexivity|exact Ex].
  - cbn [rbind]. destruct (map_result f rest) as [er|ys]; [|discriminate].
    intros [= <-]. destruct (IH eq_refl) as [z [Hin Hz]].
    exists z. split; [right; exact Hin|exact Hz].
Qed.

Lemma translate_arg_inl (a : arg_node) (e : exn) :
  translate_arg a = inl e -> translate_type (annotation_of a) = inl e.
Proof.
  unfold translate_arg. destruct (translate_type (annotation_of a));
    [intros [= <-]; reflexivity|discriminate].
Qed.

(** X4. [translate_prompt] never raises.  It returns [None] exactly when
    [translate_type] raises on the annotation of some parameter or on the
    return annotation; otherwise it returns a text. *)
Theorem translate_prompt_never_raises :
  forall name args returns description self,
    exists self' o,
      translate_prompt name args returns description self = (self', inr o)
      /\ (o = None
          <-> (exists a e, In a args /\ translate_type (annotation_of a) = inl e)
              \/ (exists e, translate_type returns = inl e)).
Proof.
  intros name args returns description self.
  unfold translate_prompt, bind. cbn [set_type].
  destruct (map_result translate_arg args) as [e|ss] eqn:Ea.
  - cbn [rbind]. eexists _, None. split; [reflexivity|].
    split; [intros _|reflexivity].
    left. destruct (map_result_inl _ _ _ Ea) as [a [Hin Ha]].
    exists a, e. split; [exact Hin|apply translate_arg_inl, Ha].
  - cbn [rbind]. destruct (translate_type returns) as [e|r] eqn:Er.
    + cbn [rbind]. eexists _, None. split; [reflexivity|].
      split; [intros _|reflexivity]. right. exists e. reflexivity.
    + cbn [rbind ok]. eexists _, (Some _). split; [reflexivity|].
      split; [discriminate|].
      intros [[a [e [Hin Ha]]]|[e He]]; [|discriminate He].
      destruct (map_result_fails translate_arg args a e Hin
                  (translate_arg_fails a e Ha)) as [e' E'].
      rewrite E' in Ea. discriminate Ea.
Qed.

(** X5. When every parameter annotation translates, to the types [tys], and
    the return annotation translates to [r], [translate_prompt] prints
    nothing and returns the package header, the comment made of the
    docstring, and the signature, which lists the parameters in their order,
    each name followed by its type. *)
Theorem translate_prompt_text :
  forall name args returns description self tys r,
    Forall2 (fun a t => translate_type (annotation_of a) = inr t) args tys ->
    translate_type returns = inr r ->
    translate_prompt name args returns description self
    = (fst (set_type (map annotation_of args, returns) self),
       inr (Some (toplevel name
                  ++ ("// " ++ sub_linestart false (strip description) ++ NL)
                  ++ "func " ++ name ++ "("
                  ++ join ", " (map (fun at_ => arg (fst at_) ++ " " ++ snd at_)
                                  (combine args tys))
                  ++ ") " ++ r ++ " {" ++ NL))).
Proof.
  intros name args returns description self tys r Ha Hr.
  assert (map_result translate_arg args
          = inr (map (fun at_ => arg (fst at_) ++ " " ++ snd at_)
                   (combine args tys))) as Ea.
  { apply map_result_inr.
    induction Ha as [|a t args' tys' Hat _ IH]; cbn [combine map];
      constructor; [|exact IH].
    unfold translate_arg. rewrite Hat. reflexivity. }
  unfold translate_prompt, bind. cbn [set_type].
  rewrite Ea, Hr. reflexivity.
Qed.

Lemma translate_prompt_text_witness :
  translate_prompt "add"
    [{| arg := "x"; annotation_of := Name "int" Load |};
     {| arg := "ys"; annotation_of := Subscript (Name "List" Load)
                                        (Name "float" Load) Load |}]
    (Name "bool" Load) " Adds. " (init "go_test.go")
  = (fst (set_type ([Name "int" Load;
                     Subscript (Name "List" Load) (Name "float" Load) Load],
                    Name "bool" Load) (init "go_test.go")),
     inr (Some (toplevel "add"
                ++ ("// " ++ sub_linestart false (strip " Adds. ") ++ NL)
                ++ "func " ++ "add" ++ "("
                ++ join ", " ["x int"; "ys []float64"]
                ++ ") " ++ "bool" ++ " {" ++ NL))).
Proof.
  apply (translate_prompt_text "add"
           [{| arg := "x"; annotation_of := Name "int" Load |};
            {| arg := "ys"; annotation_of := Subscript (Name "List" Load)
                                               (Name "float" Load) Load |}]
           (Name "bool" Load) " Adds. " (init "go_test.go")
           ["int"; "[]float64"] "bool").
  - repeat constructor.
  - reflexivity.
Defined.

(** X6. Whether it returns a text or [None], [translate_prompt] stores the
    annotations in [self.type], and leaves the file extension, the recorded
    types and the candidate flag as they were. *)
Theorem translate_prompt_frame :
  forall name args returns description self,
    let self' := fst (translate_prompt name args returns description self) in
    type_ self' = Some (map annotation_of args, returns)
    /\ file_ext self' = file_ext self
    /\ prev_comp_types self' = prev_comp_types self
    /\ is_candidate_result self' = is_candidate_result self.
Proof.
  intros name args returns description self.
  unfold translate_prompt, bind. cbn [set_type].
  destruct (map_result translate_arg args) as [e|ss]; cbn [rbind];
    [repeat split|].
  destruct (translate_type returns) as [e|r]; cbn [rbind]; repeat split.
Qed.

(** ** The docstring substitution *)

Lemma newline_is_space : is_space newline = true.
Proof. reflexivity. Qed.

Lemma sub_linestart_starts (d : ascii) (rest : string) :
  is_space d = false ->
  sub_linestart false (String d rest) = String d (sub_linestart false rest).
Proof.
  intros Hd. cbn [sub_linestart andb].
  destruct (Ascii.eqb d newline) eqn:E; [|reflexivity].
  apply Ascii.eqb_eq in E. subst d. rewrite newline_is_space in Hd.
  discriminate Hd.
Qed.

Lemma sub_linestart_clean (b : bool) (s : string) :
  after_newlines no_space (sub_linestart b s) = true.
Proof.
  revert b. induction s as [|c rest IH]; intros b; [reflexivity|].
  cbn [sub_linestart].
  destruct (b && is_space c) eqn:Eb; [apply IH|].
  destruct (Ascii.eqb c newline) eqn:Ec.
  - destruct rest as [|d rest'];
      [cbn [after_newlines]; rewrite Ec; reflexivity|].
    destruct (is_space d) eqn:Ed.
    + change (after_newlines no_space
                (String newline
                   (String "/" (String "/" (String " "
                      (sub_linestart true (String d rest')))))) = true).
      cbn [after_newlines]. rewrite Ascii.eqb_refl.
      change (Ascii.eqb "/" newline) with false.
      change (Ascii.eqb " " newline) with false.
      cbn [andb no_space starts_with_space]. apply IH.
    + cbn [after_newlines]. rewrite Ec, (IH false), andb_true_r.
      rewrite (sub_linestart_starts d rest' Ed).
      unfold no_space. cbn [starts_with_space]. rewrite Ed. reflexivity.
  - cbn [after_newlines]. rewrite Ec. apply IH.
Qed.

Lemma sub_linestart_unchanged (s : string) :
  after_newlines no_space s = true -> sub_linestart false s = s.
Proof.
  induction s as [|c rest IH]; [reflexivity|].
  cbn [after_newlines sub_linestart andb]. intros H.
  apply andb_true_iff in H as [Hc Hr].
  destruct (Ascii.eqb c newline) eqn:Ec.
  - destruct rest as [|d rest']; [reflexivity|].
    unfold no_space in Hc. cbn [starts_with_space] in Hc.
    apply negb_true_iff in Hc. rewrite Hc, (IH Hr). reflexivity.
  - rewrite (IH Hr). reflexivity.
Qed.

(** X7. In what the docstring substitution returns, no newline is followed
    by white space.  A text in which no newline is followed by white space
    is returned as it is; so the substitution, applied to its own result,
    changes nothing. *)
Theorem sub_linestart_idempotent :
  (forall s, after_newlines no_space (sub_linestart false s) = true)
  /\ (forall s, after_newlines no_space s = true -> sub_linestart false s = s)
  /\ (forall s,
         sub_linestart false (sub_linestart false s) = sub_linestart false s).
Proof.
  split; [exact (sub_linestart_clean false)|].
  split; [exact sub_linestart_unchanged|].
  intros s. apply sub_linestart_unchanged, sub_linestart_clean.
Qed.

Lemma sub_linestart_idempotent_witness :
  sub_linestart false ("a" ++ NL ++ "b") = "a" ++ NL ++ "b".
Proof.
  destruct sub_linestart_idempotent as [_ [U _]].
  apply (U ("a" ++ NL ++ "b")). reflexivity.
Defined.

Lemma sub_linestart_commented (b : bool) (s : string) :
  after_newlines starts_with_space s = true ->
  after_newlines (starts_with "// ") (sub_linestart b s) = true.
Proof.
  revert b. induction s as [|c rest IH]; intros b H; [reflexivity|].
  cbn [after_newlines] in H. apply andb_true_iff in H as [Hc Hr].
  cbn [sub_linestart].
  destruct (b && is_space c) eqn:Eb; [apply IH, Hr|].
  destruct (Ascii.eqb c newline) eqn:Ec.
  - destruct rest as [|d rest']; [discriminate Hc|].
    cbn [starts_with_space] in Hc. rewrite Hc.
    change (after_newlines (starts_with "// ")
              (String newline
                 (String "/" (String "/" (String " "
                    (sub_linestart true (String d rest')))))) = true).
    cbn [after_newlines]. rewrite Ascii.eqb_refl.
    change (Ascii.eqb "/" newline) with false.
    change (Ascii.eqb " " newline) with false.
    cbn [andb]. rewrite (IH true Hr), andb_true_r. reflexivity.
  - cbn [after_newlines]. rewrite Ec. apply IH, Hr.
Qed.

(** X8. When every newline of a text is followed by white space, as in a
    docstring whose lines after the first are indented, every newline of the
    result of the substitution is followed by the comment marker: after
    "// " is put in front, every line of the result is a comment. *)
Theorem indented_docstring_is_commented :
  forall s,
    after_newlines starts_with_space s = true ->
    starts_with "// " ("// " ++ sub_linestart false s) = true
    /\ after_newlines (starts_with "// ") ("// " ++ sub_linestart false s) = true.
Proof.
  intros s H. split; [reflexivity|].
  change (after_newlines (starts_with "// ") (sub_linestart false s) = true).
  apply sub_linestart_commented, H.
Qed.

Lemma indented_docstring_is_commented_witness :
  starts_with "// "
    ("// " ++ sub_linestart false ("Adds." ++ NL ++ "    Twice." ++ NL ++ NL
                                   ++ "    >>> f(1)")) = true
  /\ after_newlines (starts_with "// ")
       ("// " ++ sub_linestart false ("Adds." ++ NL ++ "    Twice." ++ NL ++ NL
                                      ++ "    >>> f(1)")) = true.
Proof.
  apply (indented_docstring_is_commented
           ("Adds." ++ NL ++ "    Twice." ++ NL ++ NL ++ "    >>> f(1)")).
  reflexivity.
Defined.

Lemma sub_linestart_keep (c : ascii) (rest : string) :
  Ascii.eqb c newline = false \/ no_space rest = true ->
  sub_linestart false (String c rest) = String c (sub_linestart false rest).
Proof.
  intros H. destruct rest as [|d rest'].
  - cbn [sub_linestart andb]. destruct (Ascii.eqb c newline); reflexivity.
  - cbn [sub_linestart andb].
    destruct (Ascii.eqb c newline) eqn:Ec; [|reflexivity].
    destruct H as [H|H]; [discriminate H|].
    unfold no_space in H. cbn [starts_with_space] in H.
    apply negb_true_iff in H. rewrite H. reflexivity.
Qed.

Lemma no_space_before (before rest : string) :
  no_space (before ++ NL) = true ->
  no_space (before ++ String newline rest) = true.
Proof. destruct before as [|e before']; [discriminate|exact (fun H => H)]. Qed.

(** X9. A line of the docstring that is not indented stays outside the
    comment: where no newline up to and including the one before the line is
    followed by white space, that newline is kept, with the first character
    of the line right after it. *)
Theorem unindented_line_is_not_commented :
  forall before d rest,
    after_newlines no_space (before ++ NL) = true ->
    is_space d = false ->
    sub_linestart false (before ++ String newline (String d rest))
    = before ++ String newline (String d (sub_linestart false rest)).
Proof.
  induction before as [|c before IH]; intros d rest Hb Hd.
  - cbn [append]. rewrite sub_linestart_keep, (sub_linestart_starts d rest Hd);
      [reflexivity|].
    right. unfold no_space. cbn [starts_with_space]. rewrite Hd. reflexivity.
  - change (String c before ++ NL) with (String c (before ++ NL)) in Hb.
    cbn [after_newlines] in Hb. apply andb_true_iff in Hb as [Hc Hb].
    change (String c before ++ String newline (String d rest))
      with (String c (before ++ String newline (String d rest))).
    rewrite sub_linestart_keep, (IH d rest Hb Hd); [reflexivity|].
    destruct (Ascii.eqb c newline); [right|left; reflexivity].
    apply no_space_before, Hc.
Qed.

Lemma unindented_line_is_not_commented_witness :
  sub_linestart false ("Adds." ++ String newline (String "x" " = 1"))
  = "Adds." ++ String newline (String "x" (sub_linestart false " = 1")).
Proof.
  apply (unindented_line_is_not_commented "Adds." "x" " = 1"); reflexivity.
Defined.

(** ** Lists, dicts and calls *)

Lemma strs_from_map (i : nat) (ss : list string) :
  strs_from i (map PyStr ss) = inr ss.
Proof.
  revert i. induction ss as [|s ss IH]; intros i; [reflexivity|].
  cbn [map strs_from]. rewrite IH. reflexivity.
Qed.

Lemma strs_from_first_other (i : nat) (ss : list string) (v : pyval)
    (rest : list pyval) :
  is_str v = false ->
  strs_from i (map PyStr ss ++ v :: rest)%list
  = inl (TypeErrorJoin (i + length ss)).
Proof.
  intros Hv. revert i. induction ss as [|s ss IH]; intros i.
  - cbn [map app length]. rewrite Nat.add_0_r.
    destruct v; try reflexivity. discriminate Hv.
  - cbn [map app length strs_from]. rewrite IH, Nat.add_succ_r. reflexivity.
Qed.

Lemma strs_from_returns (i : nat) (l : list pyval) :
  (exists ss, strs_from i l = inr ss) <-> forallb is_str l = true.
Proof.
  revert i. induction l as [|x rest IH]; intros i.
  - split; [reflexivity|]. intros _. exists []. reflexivity.
  - destruct x; cbn [strs_from forallb is_str andb];
      try (split; [intros [ss H]; discriminate H|discriminate]).
    rewrite <- (IH (S i)). split.
    + intros [ss H]. destruct (strs_from (S i) rest) as [e|ss'];
        [discriminate H|]. exists ss'. reflexivity.
    + intros [ss H]. rewrite H. eexists. reflexivity.
Qed.

(** X10. [gen_list] returns exactly when every item is a [str]; otherwise it
    raises the [TypeError] of [join], at the first item that is not a [str].
    A non-empty list of [str] is rendered as a slice of "string", with the
    items, as they are, between the braces. *)
Theorem gen_list_returns_iff_strs :
  (forall l self,
      (exists out, snd (gen_list l self) = inr out)
      <-> forallb is_str l = true)
  /\ (forall ss v rest self,
         is_str v = false ->
         snd (gen_list (map PyStr ss ++ v :: rest)%list self)
         = inl (TypeErrorJoin (length ss)))
  /\ (forall s ss self,
         snd (gen_list (map PyStr (s :: ss)) self)
         = inr ("[]string{" ++ join ", " (s :: ss) ++ "}")).
Proof.
  split; [|split].
  - intros [|x rest] self.
    + split; [reflexivity|intros _].
      destruct (prev_comp_types self) as [|t ts] eqn:E.
      * rewrite (gen_list_nil_unknown self E). eexists. reflexivity.
      * rewrite (gen_list_nil_known self t ts E). eexists. reflexivity.
    + rewrite gen_list_cons. cbn [snd]. unfold py_join.
      rewrite <- (strs_from_returns 0 (x :: rest)). split.
      * intros [out H].
        destruct (strs_from 0 (x :: rest)) as [e|ss]; [discriminate H|].
        exists ss. reflexivity.
      * intros [ss H]. rewrite H. eexists. reflexivity.
  - intros ss v rest self Hv.
    pose proof (strs_from_first_other 0 ss v rest Hv) as E.
    destruct (map PyStr ss ++ v :: rest)%list as [|x l'] eqn:El.
    + destruct ss; discriminate El.
    + rewrite gen_list_cons. cbn [snd]. unfold py_join. rewrite E.
      reflexivity.
  - intros s ss self. cbn [map]. rewrite gen_list_cons. cbn [snd].
    unfold py_join.
    change (PyStr s :: map PyStr ss) with (map PyStr (s :: ss)).
    rewrite strs_from_map. reflexivity.
Qed.

Lemma gen_list_returns_iff_strs_witness :
  snd (gen_list (map PyStr ["1"] ++ PyInt 2 :: [PyStr "3"])%list
         (init "go_test.go"))
  = inl (TypeErrorJoin 1).
Proof.
  destruct gen_list_returns_iff_strs as [_ [B _]].
  apply (B ["1"] (PyInt 2) [PyStr "3"] (init "go_test.go")). reflexivity.
Defined.

Lemma combine_surplus_l {A B} (a extra : list A) (b : list B) :
  length a = length b -> combine (a ++ extra) b = combine a b.
Proof.
  revert b. induction a as [|x a IH]; intros [|y b] H; try discriminate H.
  - destruct extra; reflexivity.
  - cbn [app combine]. rewrite IH; [reflexivity|].
    injection H as H. exact H.
Qed.

Lemma combine_surplus_r {A B} (a : list A) (b extra : list B) :
  length a = length b -> combine a (b ++ extra) = combine a b.
Proof.
  revert b. induction a as [|x a IH]; intros [|y b] H; try discriminate H.
  - reflexivity.
  - cbn [app combine]. rewrite IH; [reflexivity|].
    injection H as H. exact H.
Qed.

Lemma gen_dict_empty (keys values : list pyval) (self : GoTranslator) :
  keys = [] \/ values = [] ->
  gen_dict keys values self = gen_dict [] [] self.
Proof.
  intros He. unfold gen_dict, bind, get, ret, ok.
  rewrite (length_empty keys values He), (combine_empty keys values He).
  reflexivity.
Qed.

Lemma format_pairs_of_strs (ks vs : list string) :
  map_result format_pair (combine (map PyStr ks) (map PyStr vs))
  = inr (map (fun kv => fst kv ++ ": " ++ snd kv) (combine ks vs)).
Proof.
  revert vs. induction ks as [|k ks IH]; intros [|v vs]; try reflexivity.
  cbn [map combine map_result]. rewrite IH. reflexivity.
Qed.

(** X11. [gen_dict] pairs keys and values by position and renders the pairs
    only: when there are more keys than values, or more values than keys,
    the surplus is dropped without a word, and nothing of it shows in the
    result or in the translator.  On keys and values that are [str] it
    returns, and a dict with a first key and value is then a map from
    "string" to "string" with the pairs as they are.  It raises when a value
    it renders is an [int] of more digits than the interpreter converts,
    after it has recorded the types. *)
Theorem gen_dict_drops_surplus :
  (forall ks vs self,
      exists out, snd (gen_dict (map PyStr ks) (map PyStr vs) self) = inr out)
  /\ (forall k ks v vs self,
         snd (gen_dict (map PyStr (k :: ks)) (map PyStr (v :: vs)) self)
         = inr ("map[string]string{"
                ++ join ", " (map (fun kv => fst kv ++ ": " ++ snd kv)
                                (combine (k :: ks) (v :: vs)))
                ++ "}"))
  /\ (forall s z self,
         (int_max_str_digits <? int_digits z)%nat = true ->
         gen_dict [PyStr s] [PyInt z] self
         = ((if (length (prev_comp_types self) <? 2)%nat
             then recorded ["string"; "int"] self else self),
            inl ValueErrorDigits))
  /\ (forall keys values extra self,
         length keys = length values ->
         gen_dict (keys ++ extra) values self = gen_dict keys values self
         /\ gen_dict keys (values ++ extra) self = gen_dict keys values self).
Proof.
  assert (forall k ks v vs self,
             snd (gen_dict (map PyStr (k :: ks)) (map PyStr (v :: vs)) self)
             = inr ("map[string]string{"
                    ++ join ", " (map (fun kv => fst kv ++ ": " ++ snd kv)
                                    (combine (k :: ks) (v :: vs)))
                    ++ "}")) as Hcons.
  { intros k ks v vs self.
    pose proof (format_pairs_of_strs (k :: ks) (v :: vs)) as E.
    cbn [map] in E |- *. rewrite gen_dict_cons. cbn [snd]. rewrite E.
    reflexivity. }
  split; [|split; [exact Hcons|split]].
  - intros ks vs self.
    destruct ks as [|k ks]; [|destruct vs as [|v vs]].
    + rewrite (gen_dict_empty (map PyStr []) (map PyStr vs) self
                 (or_introl eq_refl)).
      destruct (Nat.lt_ge_cases (length (prev_comp_types self)) 2) as [H|H].
      * rewrite (gen_dict_empty_unknown self [] [] H (or_introl eq_refl)).
        eexists. reflexivity.
      * destruct (prev_comp_types self) as [|a [|b ts]] eqn:E;
          [cbn in H; lia|cbn in H; lia|].
        rewrite (gen_dict_empty_known self a b ts [] [] E (or_introl eq_refl)).
        eexists. reflexivity.
    + rewrite (gen_dict_empty (map PyStr (k :: ks)) (map PyStr []) self
                 (or_intror eq_refl)).
      destruct (Nat.lt_ge_cases (length (prev_comp_types self)) 2) as [H|H].
      * rewrite (gen_dict_empty_unknown self [] [] H (or_introl eq_refl)).
        eexists. reflexivity.
      * destruct (prev_comp_types self) as [|a [|b ts]] eqn:E;
          [cbn in H; lia|cbn in H; lia|].
        rewrite (gen_dict_empty_known self a b ts [] [] E (or_introl eq_refl)).
        eexists. reflexivity.
    + rewrite Hcons. eexists. reflexivity.
  - intros s z self Hz. rewrite gen_dict_cons.
    cbn [combine map_result]. unfold format_pair at 1.
    cbn [fst snd py_str py_repr rbind ok]. unfold repr_int. rewrite Hz.
    destruct (length (prev_comp_types self) <? 2)%nat; reflexivity.
  - intros keys values extra self H.
    destruct keys as [|k ks]; destruct values as [|v vs]; try discriminate H.
    + split.
      * apply gen_dict_empty. right. reflexivity.
      * apply gen_dict_empty. left. reflexivity.
    + split.
      * change ((k :: ks) ++ extra)%list with (k :: (ks ++ extra))%list.
        rewrite !gen_dict_cons.
        change (k :: (ks ++ extra))%list with ((k :: ks) ++ extra)%list.
        rewrite (combine_surplus_l (k :: ks) extra (v :: vs) H). reflexivity.
      * change ((v :: vs) ++ extra)%list with (v :: (vs ++ extra))%list.
        rewrite !gen_dict_cons.
        change (v :: (vs ++ extra))%list with ((v :: vs) ++ extra)%list.
        rewrite (combine_surplus_r (k :: ks) (v :: vs) extra H). reflexivity.
Qed.

Lemma gen_dict_drops_surplus_witness :
  gen_dict [PyStr "a"] [PyInt (10 ^ 4300)] (init "go_test.go")
  = (recorded ["string"; "int"] (init "go_test.go"), inl ValueErrorDigits)
  /\ gen_dict ([PyStr "a"] ++ [PyStr "b"; PyStr "c"]) [PyInt 1]
       (init "go_test.go")
     = gen_dict [PyStr "a"] [PyInt 1] (init "go_test.go")
  /\ gen_dict [PyStr "a"] ([PyInt 1] ++ [PyInt 2]) (init "go_test.go")
     = gen_dict [PyStr "a"] [PyInt 1] (init "go_test.go").
Proof.
  destruct gen_dict_drops_surplus as [_ [_ [R B]]].
  split; [|split].
  - apply (R "a" (10 ^ 4300)%Z (init "go_test.go")).
    vm_compute. reflexivity.
  - apply (B [PyStr "a"] [PyInt 1] [PyStr "b"; PyStr "c"] (init "go_test.go")).
    reflexivity.
  - apply (B [PyStr "a"] [PyInt 1] [PyInt 2] (init "go_test.go")).
    reflexivity.
Defined.

Lemma gen_all_preserves (P : GoTranslator -> Prop) :
  (forall c self, P self -> P (fst (gen c self))) ->
  forall cs self, P self -> P (fst (gen_all cs self)).
Proof.
  intros Hgen cs. induction cs as [|c cs IH]; intros self H; [exact H|].
  cbn [gen_all]. unfold bind at 1.
  pose proof (Hgen c self H) as Hc.
  destruct (gen c self) as [self1 [e|s]]; cbn [fst] in Hc; [exact Hc|].
  unfold bind at 1. pose proof (IH self1 Hc) as Hcs.
  destruct (gen_all cs self1) as [self2 [e|ss]]; exact Hcs.
Qed.

Lemma gen_records_one_or_two (c : literal) (self : GoTranslator) :
  (length (prev_comp_types self) <= 2)%nat ->
  (1 <= length (prev_comp_types (fst (gen c self))) <= 2)%nat.
Proof.
  intros H. destruct c as [l|keys values]; cbn [gen].
  - destruct (prev_comp_types self) as [|t ts] eqn:E.
    + destruct l as [|x rest].
      * rewrite (gen_list_nil_unknown self E). cbn. lia.
      * rewrite (gen_list_first x rest self E). cbn. lia.
    + rewrite gen_list_keeps; rewrite E; [cbn in H |- *; lia|discriminate].
  - destruct (Nat.lt_ge_cases (length (prev_comp_types self)) 2) as [L|L].
    + destruct (empty_or_cons keys values) as [He|[k [ks [v [vs [-> ->]]]]]].
      * rewrite (gen_dict_empty_unknown self keys values L He). cbn. lia.
      * rewrite (gen_dict_first k ks v vs self L). cbn. lia.
    + rewrite (gen_dict_keeps keys values self L). lia.
Qed.

Lemma gen_all_cons_state (c : literal) (cs : list literal)
    (self : GoTranslator) :
  fst (gen_all (c :: cs) self)
  = match gen c self with
    | (self1, inl _) => self1
    | (self1, inr _) => fst (gen_all cs self1)
    end.
Proof.
  cbn [gen_all]. unfold bind at 1.
  destruct (gen c self) as [self1 [e|s]]; [reflexivity|].
  unfold bind at 1.
  destruct (gen_all cs self1) as [self2 [e|ss]]; reflexivity.
Qed.

(** X12. From a new translator on, [prev_comp_types] holds nothing before
    the first list or dict, and one or two entries ever after, whether the
    calls return or raise. *)
Theorem prev_comp_types_one_or_two :
  forall ext c cs,
    prev_comp_types (init ext) = []
    /\ (1 <= length (prev_comp_types (fst (gen_all (c :: cs) (init ext))))
        <= 2)%nat.
Proof.
  intros ext c cs. split; [reflexivity|].
  assert (1 <= length (prev_comp_types (fst (gen c (init ext)))) <= 2)%nat
    as H1 by (apply gen_records_one_or_two; cbn; lia).
  rewrite gen_all_cons_state.
  destruct (gen c (init ext)) as [self1 [e|s]]; cbn [fst] in H1; [exact H1|].
  exact (gen_all_preserves
           (fun self => (1 <= length (prev_comp_types self) <= 2)%nat)
           (fun c self H => gen_records_one_or_two c self (proj2 H))
           cs self1 H1).
Qed.

Lemma extends_refl (self : GoTranslator) : extends self self.
Proof.
  repeat split. exists []. symmetry. apply app_nil_r.
Qed.

Lemma extends_trans (a b c : GoTranslator) :
  extends a b -> extends b c -> extends a c.
Proof.
  intros [F1 [T1 [C1 [l1 S1]]]] [F2 [T2 [C2 [l2 S2]]]].
  repeat split; try congruence.
  exists (l1 ++ l2)%list. rewrite S2, S1. symmetry. apply app_assoc.
Qed.

Lemma extends_printed (l : line) (self : GoTranslator) :
  extends self (printed l self).
Proof. repeat split. exists [l]. reflexivity. Qed.

Lemma extends_recorded (ts : list string) (self : GoTranslator) :
  extends self (recorded ts self).
Proof. repeat split. exists []. symmetry. apply app_nil_r. Qed.

Lemma extends_looked_up (t : pytype) (self : GoTranslator) :
  extends self (looked_up t self).
Proof.
  unfold looked_up. destruct (fixed_map t);
    [apply extends_refl|apply extends_printed].
Qed.

Lemma gen_extends (c : literal) (self : GoTranslator) :
  extends self (fst (gen c self)).
Proof.
  destruct c as [l|keys values]; cbn [gen].
  - destruct l as [|x rest].
    + destruct (prev_comp_types self) as [|t ts] eqn:E.
      * rewrite (gen_list_nil_unknown self E). cbn [fst].
        eapply extends_trans; [apply extends_printed|apply extends_recorded].
      * rewrite (gen_list_nil_known self t ts E). apply extends_refl.
    + rewrite gen_list_cons. cbn [fst].
      destruct (length (prev_comp_types self) <? 1)%nat.
      * eapply extends_trans; [apply extends_looked_up|apply extends_recorded].
      * apply extends_looked_up.
  - destruct (empty_or_cons keys values) as [He|[k [ks [v [vs [-> ->]]]]]].
    + destruct (Nat.lt_ge_cases (length (prev_comp_types self)) 2) as [H|H].
      * rewrite (gen_dict_empty_unknown self keys values H He). cbn [fst].
        eapply extends_trans; [apply extends_printed|apply extends_recorded].
      * destruct (prev_comp_types self) as [|a [|b ts]] eqn:E;
          [cbn in H; lia|cbn in H; lia|].
        rewrite (gen_dict_empty_known self a b ts keys values E He).
        apply extends_refl.
    + rewrite gen_dict_cons. cbn [fst].
      assert (extends self
                (looked_up (py_type v) (looked_up (py_type k) self))) as L
        by (eapply extends_trans; apply extends_looked_up).
      destruct (length (prev_comp_types self) <? 2)%nat; [|exact L].
      eapply extends_trans; [exact L|apply extends_recorded].
Qed.

(** X13. Translating the lists and dicts of a problem changes nothing of the
    translator but the recorded types and the printed lines: the file
    extension, the stored annotations and the candidate flag stay, and the
    lines printed before stay, in front of the new ones. *)
Theorem gen_all_extends :
  forall cs self, extends self (fst (gen_all cs self)).
Proof.
  intros cs self.
  apply (gen_all_preserves (extends self)); [|apply extends_refl].
  intros c self1 H. eapply extends_trans; [exact H|apply gen_extends].
Qed.

(** X14. [gen_call] raises the candidate flag when the function is
    "candidate", before it joins the arguments, so that the flag is raised
    also when the join raises; with another function the flag stays as it
    was, and no call of [gen_call] lowers it.  When the arguments are [str]
    the call returns the function, and the arguments between parentheses. *)
Theorem gen_call_flag :
  forall func args self,
    is_candidate_result (fst (gen_call func args self))
    = (func =? "candidate") || is_candidate_result self
    /\ (forall ss,
           args = map PyStr ss ->
           snd (gen_call func args self)
           = inr (func ++ "(" ++ join ", " ss ++ ")"))
    /\ (forall ss v rest,
           args = (map PyStr ss ++ v :: rest)%list ->
           is_str v = false ->
           snd (gen_call func args self) = inl (TypeErrorJoin (length ss))).
Proof.
  intros func args self. unfold gen_call, bind, lift, ret, ok, py_join.
  split; [|split].
  - destruct (func =? "candidate"); cbn [set_is_candidate_result];
      destruct (strs_from 0 args); reflexivity.
  - intros ss ->. rewrite strs_from_map.
    destruct (func =? "candidate"); reflexivity.
  - intros ss v rest -> Hv. rewrite (strs_from_first_other 0 ss v rest Hv).
    destruct (func =? "candidate"); reflexivity.
Qed.

Lemma gen_call_flag_witness :
  snd (gen_call "candidate" (map PyStr ["1"; "2"]) (init "go_test.go"))
  = inr ("candidate" ++ "(" ++ join ", " ["1"; "2"] ++ ")")
  /\ snd (gen_call "candidate" (map PyStr ["1"] ++ PyInt 2 :: [])%list
            (init "go_test.go"))
     = inl (TypeErrorJoin 1).
Proof.
  split.
  - apply (gen_call_flag "candidate" (map PyStr ["1"; "2"]) (init "go_test.go")).
    reflexivity.
  - destruct (gen_call_flag "candidate" (map PyStr ["1"] ++ PyInt 2 :: [])%list
                (init "go_test.go")) as [_ [_ R]].
    apply (R ["1"] (PyInt 2) []); reflexivity.
Defined.

(** ** Scalars *)

Lemma to_int_proper (z : Z) :
  Z.to_int z <> Decimal.Pos Decimal.Nil /\ Z.to_int z <> Decimal.Neg Decimal.Nil.
Proof.
  destruct z as [|p|p]; cbn [Z.to_int]; split; try discriminate;
    intros [= H]; exact (Unsigned.to_uint_nonnil p H).
Qed.

(** X15. [gen_literal] leaves the translator as it is.  A [bool] gives
    "true" or "false" and a [float] gives its [repr].  An [int] of at most
    4300 digits gives its decimal numeral, from which the [int] is read
    back; an [int] of more digits makes [gen_literal] raise the [ValueError]
    of the conversion. *)
Theorem gen_literal_scalars :
  (forall c self, fst (gen_literal c self) = self)
  /\ (forall b self,
         gen_literal (PyBool b) self
         = (self, inr (if b then "true" else "false")))
  /\ (forall f self, gen_literal (PyFloat f) self = (self, inr (float_repr f)))
  /\ (forall z self,
         (int_max_str_digits <? int_digits z)%nat = false ->
         exists text,
           gen_literal (PyInt z) self = (self, inr text)
           /\ option_map Z.of_int (NilZero.int_of_string text) = Some z)
  /\ (forall z self,
         (int_max_str_digits <? int_digits z)%nat = true ->
         gen_literal (PyInt z) self = (self, inl ValueErrorDigits)).
Proof.
  split; [|split; [|split; [|split]]].
  - intros c self. destruct c as [[|]| | | | | | |]; reflexivity.
  - intros [|] self; reflexivity.
  - intros f self. reflexivity.
  - intros z self Hz. exists (NilZero.string_of_int (Z.to_int z)). split.
    + unfold gen_literal, lift. cbn [py_type type_eq pytype_eqb py_repr].
      unfold repr_int. rewrite Hz. reflexivity.
    + destruct (to_int_proper z) as [P N].
      rewrite (NilZero.isi (Z.to_int z) P N). cbn [option_map].
      rewrite DecimalZ.of_to. reflexivity.
  - intros z self Hz.
    unfold gen_literal, lift. cbn [py_type type_eq pytype_eqb py_repr].
    unfold repr_int. rewrite Hz. reflexivity.
Qed.

Lemma gen_literal_scalars_witness :
  (exists text,
      gen_literal (PyInt (-12)) (init "go_test.go")
      = (init "go_test.go", inr text)
      /\ option_map Z.of_int (NilZero.int_of_string text) = Some (-12)%Z)
  /\ gen_literal (PyInt (10 ^ 4300)) (init "go_test.go")
     = (init "go_test.go", inl ValueErrorDigits).
Proof.
  destruct gen_literal_scalars as [_ [_ [_ [A B]]]].
  split.
  - apply (A (-12)%Z (init "go_test.go")). vm_compute. reflexivity.
  - apply (B (10 ^ 4300)%Z (init "go_test.go")). vm_compute. reflexivity.
Defined.

(** X16. Once an empty dict has been translated with fewer than two types
    recorded, the defaults "string" and "int" are what every later empty
    literal renders with, whatever is translated between: an empty list as a
    slice of "string", an empty dict as a map from "string" to "int". *)
Theorem empty_dict_sets_defaults :
  forall self keys values between,
    (length (prev_comp_types self) < 2)%nat ->
    keys = [] \/ values = [] ->
    (forall self' outs,
        gen_all (DictLit keys values :: between ++ [ListLit []])%list self
        = (self', inr outs) ->
        last outs "" = "[]string{}")
    /\ (forall keys' values' self' outs,
           keys' = [] \/ values' = [] ->
           gen_all (DictLit keys values :: between ++ [DictLit keys' values'])%list
                   self = (self', inr outs) ->
           last outs "" = "map[string]int{}").
Proof.
  intros self keys values between L He.
  assert (forall c self' outs,
             gen_all (DictLit keys values :: between ++ [c])%list self
             = (self', inr outs) ->
             exists self2 front s,
               prev_comp_types self2 = ["string"; "int"]
               /\ gen c self2 = (self', inr s)
               /\ outs = (front ++ [s])%list) as Hrun.
  { intros c self' outs H.
    apply gen_all_cons in H as [self1 [s [ss [E1 [E2 ->]]]]].
    apply gen_all_snoc in E2 as [self2 [before [t [Eb [Et ->]]]]].
    cbn [gen] in E1.
    rewrite (gen_dict_empty_unknown self keys values L He) in E1.
    injection E1 as <- _.
    pose proof (gen_all_keeps_two between
                  (recorded ["string"; "int"]
                     (printed (Text "bad dict, empty") self))) as P2.
    rewrite Eb in P2. cbn [fst] in P2.
    exists self2, (s :: before), t.
    split; [apply P2; cbn; lia|]. split; [exact Et|reflexivity]. }
  split.
  - intros self' outs H.
    destruct (Hrun _ _ _ H) as [self2 [front [s [P [Et ->]]]]].
    cbn [gen] in Et. rewrite (gen_list_nil_known self2 _ _ P) in Et.
    injection Et as _ <-. apply last_last.
  - intros keys' values' self' outs He' H.
    destruct (Hrun _ _ _ H) as [self2 [front [s [P [Et ->]]]]].
    cbn [gen] in Et.
    rewrite (gen_dict_empty_known self2 _ _ _ keys' values' P He') in Et.
    injection Et as _ <-. apply last_last.
Qed.

Lemma empty_dict_sets_defaults_witness :
  last ["map[string]int{}"; "map[int]bool{1: True}"; "[]string{}"] ""
  = "[]string{}".
Proof.
  destruct (empty_dict_sets_defaults
              (recorded ["int"] (init "go_test.go")) [] []
              [DictLit [PyInt 1] [PyBool true]]) as [A _].
  - cbn. lia.
  - left. reflexivity.
  - apply (A (recorded ["string"; "int"]
                (printed (Text "bad dict, empty")
                   (recorded ["int"] (init "go_test.go"))))
             ["map[string]int{}"; "map[int]bool{1: True}"; "[]string{}"]).
    reflexivity.
Defined.

(** ** Token lists *)

Lemma takewhile_dropwhile {A} (p : A -> bool) (l : list A) :
  l = (takewhile p l ++ dropwhile p l)%list.
Proof.
  induction l as [|x rest IH]; [reflexivity|].
  cbn [takewhile dropwhile]. destruct (p x); [|reflexivity].
  cbn [app]. f_equal. exact IH.
Qed.

Lemma takewhile_all {A} (p : A -> bool) (l : list A) :
  forallb p (takewhile p l) = true.
Proof.
  induction l as [|x rest IH]; [reflexivity|].
  cbn [takewhile]. destruct (p x) eqn:E; [|reflexivity].
  cbn [forallb]. rewrite E. exact IH.
Qed.

Lemma dropwhile_head {A} (p : A -> bool) (l : list A) (x : A) (rest : list A) :
  dropwhile p l = x :: rest -> p x = false.
Proof.
  induction l as [|y l' IH]; [discriminate|].
  cbn [dropwhile]. destruct (p y) eqn:E; [exact IH|].
  intros [= <- _]. exact E.
Qed.

Lemma takewhile_fixed {A} (p : A -> bool) (l : list A) :
  forallb p l = true -> takewhile p l = l.
Proof.
  induction l as [|x rest IH]; [reflexivity|].
  cbn [forallb takewhile]. intros H. apply andb_true_iff in H as [Hx Hr].
  rewrite Hx, (IH Hr). reflexivity.
Qed.

Lemma takewhile_app {A} (p : A -> bool) (l : list A) (x : A) (rest : list A) :
  forallb p l = true -> p x = false ->
  takewhile p (l ++ x :: rest) = l.
Proof.
  intros Hl Hx. induction l as [|y l' IH].
  - cbn [app takewhile]. rewrite Hx. reflexivity.
  - cbn [forallb] in Hl. apply andb_true_iff in Hl as [Hy Hl].
    cbn [app takewhile]. rewrite Hy, (IH Hl). reflexivity.
Qed.

Lemma dropwhile_app {A} (p : A -> bool) (pre l : list A) :
  forallb p pre = true -> dropwhile p (pre ++ l) = dropwhile p l.
Proof.
  induction pre as [|y pre IH]; [reflexivity|].
  cbn [forallb app dropwhile]. intros H.
  apply andb_true_iff in H as [Hy Hp]. rewrite Hy. exact (IH Hp).
Qed.

Lemma dropwhile_fixed {A} (p : A -> bool) (l : list A) :
  match l with [] => True | x :: _ => p x = false end ->
  dropwhile p l = l.
Proof.
  destruct l as [|x rest]; [reflexivity|].
  cbn [dropwhile]. intros ->. reflexivity.
Qed.

Lemma takewhile_head {A} (p q : A -> bool) (l : list A) :
  match l with [] => True | x :: _ => q x = false end ->
  match takewhile p l with [] => True | x :: _ => q x = false end.
Proof.
  destruct l as [|x rest]; [exact (fun H => H)|].
  cbn [takewhile]. destruct (p x); [exact (fun H => H)|exact (fun _ => I)].
Qed.

Lemma dropwhile_starts {A} (p : A -> bool) (l : list A) :
  match dropwhile p l with [] => True | x :: _ => p x = false end.
Proof.
  destruct (dropwhile p l) as [|x rest] eqn:E; [exact I|].
  exact (dropwhile_head p l x rest E).
Qed.

(** X17. What [_remove_padding_and_stop_at_special_tokens] returns is a run
    of the tokens it is given: before the run come only tokens that are the
    pad or the bos token, and the run ends at the first special token after
    that, or at the end of the list.  No token of the run is special, and
    the run does not start with the pad or the bos token. *)
Theorem remove_padding_is_the_run :
  forall self token_id_list,
    let out := _remove_padding_and_stop_at_special_tokens self token_id_list in
    exists pre post,
      token_id_list = (pre ++ out ++ post)%list
      /\ forallb (_is_pad_or_bos_token_id self) pre = true
      /\ forallb (_is_normal_token_id self) out = true
      /\ match post with
         | [] => True
         | t :: _ => py_in t (_all_special_token_ids self) = true
         end
      /\ match (out ++ post)%list with
         | [] => True
         | t :: _ => _is_pad_or_bos_token_id self t = false
         end.
Proof.
  intros self l out. subst out.
  unfold _remove_padding_and_stop_at_special_tokens.
  set (pad := _is_pad_or_bos_token_id self).
  set (normal := _is_normal_token_id self).
  exists (takewhile pad l), (dropwhile normal (dropwhile pad l)).
  rewrite <- (takewhile_dropwhile normal (dropwhile pad l)).
  split; [apply takewhile_dropwhile|].
  split; [apply takewhile_all|].
  split; [apply takewhile_all|].
  split; [|apply dropwhile_starts].
  pose proof (dropwhile_starts normal (dropwhile pad l)) as H.
  destruct (dropwhile normal (dropwhile pad l)) as [|t rest]; [exact I|].
  unfold normal, _is_normal_token_id in H. apply negb_false_iff in H. exact H.
Qed.

(** X18. A token list that does not start with the pad or the bos token
    and has no special token is returned as it is; the result of
    [_remove_padding_and_stop_at_special_tokens] is such a list, so that
    applying the function a second time changes nothing. *)
Theorem remove_padding_idempotent :
  (forall self l,
      match l with
      | [] => True
      | t :: _ => _is_pad_or_bos_token_id self t = false
      end ->
      forallb (_is_normal_token_id self) l = true ->
      _remove_padding_and_stop_at_special_tokens self l = l)
  /\ (forall self l,
         _remove_padding_and_stop_at_special_tokens self
           (_remove_padding_and_stop_at_special_tokens self l)
         = _remove_padding_and_stop_at_special_tokens self l).
Proof.
  assert (forall self l,
             match l with
             | [] => True
             | t :: _ => _is_pad_or_bos_token_id self t = false
             end ->
             forallb (_is_normal_token_id self) l = true ->
             _remove_padding_and_stop_at_special_tokens self l = l) as Hfix.
  { intros self l Hh Hn.
    unfold _remove_padding_and_stop_at_special_tokens.
    rewrite (dropwhile_fixed _ l Hh). apply takewhile_fixed, Hn. }
  split; [exact Hfix|].
  intros self l. apply Hfix.
  - unfold _remove_padding_and_stop_at_special_tokens.
    apply takewhile_head, dropwhile_starts.
  - apply takewhile_all.
Qed.

Lemma remove_padding_idempotent_witness :
  _remove_padding_and_stop_at_special_tokens
    {| pad_token_id := 0%Z; bos_token_id := Some 1%Z;
       _all_special_token_ids := [0; 1; 2]%Z |} [5; 6; 7]%Z
  = [5; 6; 7]%Z.
Proof.
  destruct remove_padding_idempotent as [A _].
  apply (A {| pad_token_id := 0%Z; bos_token_id := Some 1%Z;
              _all_special_token_ids := [0; 1; 2]%Z |} [5; 6; 7]%Z);
    reflexivity.
Defined.

(** X19. Padding put around a completion is taken off again: when the left
    padding is made of pad and bos tokens, the completion has no special
    token and does not start with the pad or the bos token, and a special
    token follows it, the function returns the completion. *)
Theorem remove_padding_recovers_completion :
  forall self pre body t rest,
    forallb (_is_pad_or_bos_token_id self) pre = true ->
    forallb (_is_normal_token_id self) body = true ->
    match body with
    | [] => _is_pad_or_bos_token_id self t = false
    | b :: _ => _is_pad_or_bos_token_id self b = false
    end ->
    py_in t (_all_special_token_ids self) = true ->
    _remove_padding_and_stop_at_special_tokens self (pre ++ body ++ t :: rest)
    = body.
Proof.
  intros self pre body t rest Hpre Hbody Hhead Ht.
  unfold _remove_padding_and_stop_at_special_tokens.
  rewrite (dropwhile_app _ pre _ Hpre).
  rewrite dropwhile_fixed.
  - apply takewhile_app; [exact Hbody|].
    unfold _is_normal_token_id. rewrite Ht. reflexivity.
  - destruct body as [|b body']; exact Hhead.
Qed.

Lemma remove_padding_recovers_completion_witness :
  _remove_padding_and_stop_at_special_tokens
    {| pad_token_id := 0%Z; bos_token_id := Some 1%Z;
       _all_special_token_ids := [0; 1; 2]%Z |}
    ([0%Z; 0%Z; 1%Z] ++ [5%Z; 6%Z; 7%Z] ++ 2%Z :: [0%Z; 0%Z])%list
  = [5; 6; 7]%Z.
Proof.
  apply (remove_padding_recovers_completion
           {| pad_token_id := 0%Z; bos_token_id := Some 1%Z;
              _all_special_token_ids := [0; 1; 2]%Z |}
           [0; 0; 1]%Z [5; 6; 7]%Z 2%Z [0; 0]%Z);
    reflexivity.
Defined.

(** ** The name of a model *)

Lemma replace_char_length (old new : ascii) (s : string) :
  String.length (replace_char old new s) = String.length s.
Proof.
  induction s as [|c rest IH]; [reflexivity|].
  cbn [replace_char String.length]. rewrite IH. reflexivity.
Qed.

Lemma replace_char_removes (old new : ascii) (s : string) :
  Ascii.eqb old new = false -> contains old (replace_char old new s) = false.
Proof.
  intros H. induction s as [|c rest IH]; [reflexivity|].
  cbn [replace_char contains]. rewrite IH, orb_false_r.
  destruct (Ascii.eqb c old) eqn:E; [exact H|].
  rewrite Ascii.eqb_sym. exact E.
Qed.

Lemma replace_char_keeps_out (old new x : ascii) (s : string) :
  Ascii.eqb x new = false -> contains x s = false ->
  contains x (replace_char old new s) = false.
Proof.
  intros Hx. induction s as [|c rest IH]; [reflexivity|].
  cbn [replace_char contains]. intros H.
  apply orb_false_iff in H as [Hc Hr]. rewrite (IH Hr), orb_false_r.
  destruct (Ascii.eqb c old); [exact Hx|exact Hc].
Qed.

Lemma replace_twice_underscored (s : string) :
  replace_char "-" "_" (replace_char "/" "_" s) = map_chars underscored s.
Proof.
  induction s as [|c rest IH]; [reflexivity|].
  cbn [replace_char map_chars]. rewrite IH. f_equal.
  unfold underscored. destruct (Ascii.eqb c "/"); [reflexivity|].
  cbn [orb]. reflexivity.
Qed.

(** X20. Without an override (none given, or the empty text),
    [do_name_override] returns the name with every "/" and every "-"
    replaced by "_" and every other character kept, in place: the result has
    the length of the name and neither character in it.  With an override
    that is not empty, it returns the override, untouched. *)
Theorem do_name_override_result :
  (forall args,
      truthy (name_override args) = false ->
      do_name_override args = map_chars underscored (name args)
      /\ String.length (do_name_override args) = String.length (name args)
      /\ contains "/" (do_name_override args) = false
      /\ contains "-" (do_name_override args) = false)
  /\ (forall args c s,
         name_override args = Some (String c s) ->
         do_name_override args = String c s).
Proof.
  split.
  - intros args H. unfold do_name_override. rewrite H.
    split; [apply replace_twice_underscored|].
    split; [rewrite !replace_char_length; reflexivity|].
    split.
    + apply replace_char_keeps_out; [reflexivity|].
      apply replace_char_removes. reflexivity.
    + apply replace_char_removes. reflexivity.
  - intros args c s H. unfold do_name_override. rewrite H. reflexivity.
Qed.

Lemma do_name_override_result_witness :
  (do_name_override {| name := "bigcode/santa-coder"; name_override := None |}
   = map_chars underscored "bigcode/santa-coder"
   /\ String.length
        (do_name_override
           {| name := "bigcode/santa-coder"; name_override := None |})
      = String.length "bigcode/santa-coder"
   /\ contains "/"
        (do_name_override
           {| name := "bigcode/santa-coder"; name_override := None |}) = false
   /\ contains "-"
        (do_name_override
           {| name := "bigcode/santa-coder"; name_override := None |}) = false)
  /\ do_name_override
       {| name := "bigcode/santa-coder"; name_override := Some "santa" |}
     = "santa".
Proof.
  destruct do_name_override_result as [A B].
  split.
  - apply (A {| name := "bigcode/santa-coder"; name_override := None |}).
    reflexivity.
  - apply (B {| name := "bigcode/santa-coder"; name_override := Some "santa" |}
             "s"%char "anta").
    reflexivity.
Defined.
